(** * markdownreveal: a shallow embedding of [markdownreveal/__init__.py]

    The development follows the source file top to bottom: the pieces of
    the Python runtime the module leans on ([str], [pathlib], [re],
    exceptions), then [clean_revealjs_tar_members], [initialize_localdir],
    [find_indexes], [tweak_html], [generate] and the watchdog [Handler].
    Definitions come first, the theorems about them afterwards. *)

From Stdlib Require Import Ascii ZArith.
From stdpp Require Import base strings list gmap.

(** ** Python [str]

    A Python [str] is modelled as a [string]; its characters are the code
    points below 256. *)
Module Str.

Definition chr (n : nat) : ascii := ascii_of_nat n.

(** The double quote, written through its code point. *)
Definition dq : string := String (chr 34) "".

(** [quoted s] is [s] between double quotes. *)
Definition quoted (s : string) : string := dq +:+ s +:+ dq.

Definition LF : ascii := chr 10.

(** The one-character string holding a newline. *)
Definition nl : string := String LF "".

(** The line boundaries of [str.splitlines] that are single characters
    of our alphabet: LF, VT, FF, CR, FS, GS, RS and NEL.  CR is singled
    out because CR LF counts as one boundary. *)
Definition CR : ascii := chr 13.

Definition is_linebreak (c : ascii) : bool :=
  match nat_of_ascii c with
  | 10 | 11 | 12 | 13 | 28 | 29 | 30 | 133 => true
  | _ => false
  end.

(** [s.splitlines()]: no trailing empty line after a final boundary. *)
Fixpoint splitlines (s : string) : list string :=
  match s with
  | "" => []
  | String c s' =>
      if Ascii.eqb c CR then
        match s' with
        | String c' s'' =>
            if Ascii.eqb c' LF then "" :: splitlines s''
            else "" :: splitlines s'
        | "" => [""]
        end
      else if is_linebreak c then "" :: splitlines s'
      else match splitlines s' with
           | [] => [String c ""]
           | line :: lines => String c line :: lines
           end
  end.

(** [sep.join(items)]. *)
Fixpoint join (sep : string) (items : list string) : string :=
  match items with
  | [] => ""
  | [x] => x
  | x :: rest => x +:+ sep +:+ join sep rest
  end.

(** [s.split(sep)] for a one-character separator. *)
Fixpoint split (sep : ascii) (s : string) : list string :=
  match s with
  | "" => [""]
  | String c s' =>
      if Ascii.eqb c sep then "" :: split sep s'
      else match split sep s' with
           | [] => [String c ""]
           | w :: ws => String c w :: ws
           end
  end.

(** [c in s]. *)
Fixpoint mem (c : ascii) (s : string) : bool :=
  match s with
  | "" => false
  | String c' s' => Ascii.eqb c' c || mem c s'
  end.

(** [s.startswith(p)]. *)
Fixpoint startswith (p s : string) : bool :=
  match p, s with
  | "", _ => true
  | String a p', String b s' => Ascii.eqb a b && startswith p' s'
  | _, _ => false
  end.

(** [s.replace(old, new)] for a non-empty [old]: occurrences are taken
    left to right without overlap.  [skip] counts the characters of a
    matched occurrence still to be dropped. *)
Fixpoint replace_from (skip : nat) (old new s : string) : string :=
  match s with
  | "" => ""
  | String c s' =>
      match skip with
      | S k => replace_from k old new s'
      | O =>
          if startswith old s
          then new +:+ replace_from (String.length old - 1) old new s'
          else String c (replace_from 0 old new s')
      end
  end.

Definition replace (old new s : string) : string := replace_from 0 old new s.

End Str.

(** ** [pathlib] on POSIX

    [PurePosixPath]: a root (empty, one slash, or exactly two slashes) and
    the list of name components; empty components and single dots are
    dropped while parsing, double dots are kept. *)
Module Pathlib.

Record PurePath := mkPath { root : string; names : list string }.

Definition sep : ascii := "/"%char.

Definition root_of (s : string) : string :=
  match s with
  | String c1 rest =>
      if Ascii.eqb c1 sep then
        match rest with
        | String c2 rest' =>
            if Ascii.eqb c2 sep then
              match rest' with
              | String c3 _ => if Ascii.eqb c3 sep then "/" else "//"
              | "" => "//"
              end
            else "/"
        | "" => "/"
        end
      else ""
  | "" => ""
  end.

Definition is_name (s : string) : bool :=
  negb (String.eqb s "") && negb (String.eqb s ".").

(** [Path(s)]. *)
Definition Path (s : string) : PurePath :=
  {| root := root_of s; names := filter is_name (Str.split sep s) |}.

Definition is_absolute (p : PurePath) : bool := negb (String.eqb (root p) "").

(** [p.parts]: the root, when there is one, is the first part. *)
Definition parts (p : PurePath) : list string :=
  if is_absolute p then root p :: names p else names p.

(** [p / s]: an absolute right operand replaces the left one. *)
Definition truediv (p : PurePath) (s : string) : PurePath :=
  let q := Path s in
  if is_absolute q then q
  else {| root := root p; names := names p ++ names q |}.

(** [Path] applied to several segments: they are joined left to right. *)
Definition Path_of (segments : list string) : PurePath :=
  fold_left truediv segments {| root := ""; names := [] |}.

(** [str(p)]. *)
Definition str (p : PurePath) : string :=
  match root p, names p with
  | "", [] => "."
  | r, ns => r +:+ Str.join "/" ns
  end.

End Pathlib.

Notation "p // s" := (Pathlib.truediv p s) (at level 40, left associativity).

(** ** [tarfile.TarInfo] objects and [clean_revealjs_tar_members]

    [TarInfo] objects are mutable and the function assigns to
    [member.name], so members are references into a store of objects. *)
Module Tarfile.

Record TarInfo := mkTarInfo { name : string; isdir : bool; data : string }.

Definition ref := nat.
Definition Store := ref -> TarInfo.

(** [member.name = n]. *)
Definition set_name (h : Store) (member : ref) (n : string) : Store :=
  fun r => if Nat.eqb r member
           then {| name := n; isdir := isdir (h r); data := data (h r) |}
           else h r.

(** [tar.getmembers()]: one object per entry of the archive, in the
    archive's order; [getmembers_store] is the store holding them. *)
Definition getmembers_store (infos : list TarInfo) : Store :=
  fun r => nth r infos {| name := ""; isdir := false; data := "" |}.

Definition getmembers (infos : list TarInfo) : list ref :=
  seq 0 (length infos).

End Tarfile.

Import Tarfile.

(** The [for member in members] loop, with the store and the [clean]
    list as loop state. *)
Fixpoint clean_loop (members : list ref) (h : Store) (clean : list ref)
  : Store * list ref :=
  match members with
  | [] => (h, clean)
  | member :: rest =>
      let path := Pathlib.Path (name (h member)) in
      if Pathlib.is_absolute path then clean_loop rest h clean
      else
        let parts := tail (Pathlib.parts path) in
        match parts with
        | [] => clean_loop rest h clean
        | p0 :: _ =>
            if String.eqb p0 "test" then clean_loop rest h clean
            else
              let h' := set_name h member (Pathlib.str (Pathlib.Path_of parts)) in
              clean_loop rest h' (clean ++ [member])
        end
  end.

Definition clean_revealjs_tar_members (h : Store) (members : list ref)
  : Store * list ref :=
  clean_loop members h [].

(** ** Exceptions and results *)

Inductive exn :=
| KeyError (key : string)
| TypeError
| IndexError
| FileExistsError
| FileNotFoundError
| IsADirectoryError
| NotADirectoryError
| ReadError             (* tarfile.ReadError *)
| ExtractError          (* a failure inside tar.extractall *)
| RequestException      (* requests / urllib failures *)
| CalledProcessError    (* subprocess.check_output *)
| ConverterError        (* pypandoc's RuntimeError *)
| SymlinkLoop.          (* ELOOP *)

Inductive result (A : Type) :=
| Ok (a : A)
| Raise (e : exn).
Arguments Ok {A} a.
Arguments Raise {A} e.

Definition rbind {A B} (m : result A) (k : A -> result B) : result B :=
  match m with
  | Ok a => k a
  | Raise e => Raise e
  end.

Declare Scope py_scope.
Delimit Scope py_scope with py.
Notation "'do' x <- m ; k" := (rbind m (fun x => k))
  (at level 10, x name, m at level 100, k at level 200) : py_scope.

(** ** The [re] fragment the module uses

    The patterns of the source are literal characters, the dot and the
    star; [search] decides whether some substring matches. *)
Module Re.

Inductive regex :=
| Void
| Eps
| Chr (c : ascii)
| Dot
| Cat (r1 r2 : regex)
| Alt (r1 r2 : regex)
| Star (r : regex).

Fixpoint nullable (r : regex) : bool :=
  match r with
  | Void | Chr _ | Dot => false
  | Eps | Star _ => true
  | Cat r1 r2 => nullable r1 && nullable r2
  | Alt r1 r2 => nullable r1 || nullable r2
  end.

Definition cat (r1 r2 : regex) : regex :=
  match r1, r2 with
  | Void, _ | _, Void => Void
  | Eps, r | r, Eps => r
  | _, _ => Cat r1 r2
  end.

Definition alt (r1 r2 : regex) : regex :=
  match r1, r2 with
  | Void, r | r, Void => r
  | _, _ => Alt r1 r2
  end.

(** Brzozowski derivative; the dot matches everything but a newline. *)
Fixpoint deriv (c : ascii) (r : regex) : regex :=
  match r with
  | Void | Eps => Void
  | Chr c' => if Ascii.eqb c c' then Eps else Void
  | Dot => if Ascii.eqb c Str.LF then Void else Eps
  | Cat r1 r2 =>
      alt (cat (deriv c r1) r2) (if nullable r1 then deriv c r2 else Void)
  | Alt r1 r2 => alt (deriv c r1) (deriv c r2)
  | Star r1 => cat (deriv c r1) (Star r1)
  end.

(** Some prefix of [s] matches [r]. *)
Fixpoint match_here (r : regex) (s : string) : bool :=
  nullable r ||
  match s with
  | "" => false
  | String c s' => match_here (deriv c r) s'
  end.

Fixpoint search_regex (r : regex) (s : string) : bool :=
  match_here r s ||
  match s with
  | "" => false
  | String _ s' => search_regex r s'
  end.

(** Pattern syntax: a dot is the wildcard, a star repeats the atom
    before it, every other character stands for itself. *)
Definition atom (c : ascii) : regex :=
  if Ascii.eqb c "."%char then Dot else Chr c.

Fixpoint compile (p : string) : regex :=
  match p with
  | "" => Eps
  | String c p' =>
      match p' with
      | String c' p'' =>
          if Ascii.eqb c' "*"%char then Cat (Star (atom c)) (compile p'')
          else Cat (atom c) (compile p')
      | "" => atom c
      end
  end.

(** [re.search(pattern, s)] as a truth value. *)
Definition search (pattern s : string) : bool :=
  search_regex (compile pattern) s.

End Re.

(** ** [find_indexes] *)

(** [[i for i, item in enumerate(haystack) if re.search(regex, item)]],
    with [i] the index of the head of [haystack]. *)
Fixpoint find_indexes_from (i : nat) (haystack : list string) (regex : string)
  : list nat :=
  match haystack with
  | [] => []
  | item :: rest =>
      if Re.search regex item
      then i :: find_indexes_from (S i) rest regex
      else find_indexes_from (S i) rest regex
  end.

Definition find_indexes (haystack : list string) (regex : string) : list nat :=
  find_indexes_from 0 haystack regex.

(** ** Python lists *)
Module PyList.

(** [l[0]]. *)
Definition item0 {A} (l : list A) : result A :=
  match l with
  | [] => Raise IndexError
  | x :: _ => Ok x
  end.

(** [l.insert(i, x)] for [i >= 0]: past the end it appends. *)
Definition insert {A} (l : list A) (i : nat) (x : A) : list A :=
  take i l ++ x :: drop i l.

(** [l[i] = f(l[i])] for an index in range. *)
Definition update {A} (l : list A) (i : nat) (f : A -> A) : list A :=
  alter f i l.

End PyList.

(** ** The file system

    Nodes are keyed by their absolute path, a list of components from the
    root.  Paths are looked up literally: a symbolic link is followed only
    when it is the final component. *)
Module FS.

Definition path := list string.

Inductive node :=
| Dir
| File (data : string)
| Symlink (target : Pathlib.PurePath).

Definition t := path -> option node.

(** [os.lstat]: the root always is a directory. *)
Definition lstat (f : t) (p : path) : option node :=
  match p with
  | [] => Some Dir
  | _ => f p
  end.

Definition norm_step (acc : path) (c : string) : path :=
  if String.eqb c ".." then removelast acc else acc ++ [c].

(** The absolute path a [PurePath] denotes from the directory [base]. *)
Definition abs (base : path) (p : Pathlib.PurePath) : path :=
  fold_left norm_step (Pathlib.names p)
            (if Pathlib.is_absolute p then [] else base).

(** Follow the links at the final component; a relative target is
    taken from the directory of the link.  [None] is ELOOP. *)
Fixpoint resolve (fuel : nat) (f : t) (p : path) : option path :=
  match lstat f p with
  | Some (Symlink target) =>
      match fuel with
      | O => None
      | S n => resolve n f (abs (removelast p) target)
      end
  | _ => Some p
  end.

Definition max_links : nat := 40.

(** [os.stat]. *)
Definition stat (f : t) (p : path) : option node :=
  match resolve max_links f p with
  | Some q => lstat f q
  | None => None
  end.

Definition is_dir (f : t) (p : path) : bool :=
  match stat f p with
  | Some Dir => true
  | _ => false
  end.

Definition set (f : t) (p : path) (n : option node) : t :=
  fun q => if decide (q = p) then n else f q.

(** [strip_prefix d p] is [Some rel] when [p = d ++ rel]. *)
Fixpoint strip_prefix (d p : path) : option path :=
  match d, p with
  | [], _ => Some p
  | x :: d', y :: p' => if decide (x = y) then strip_prefix d' p' else None
  | _ :: _, [] => None
  end.

(** Every missing proper-or-equal ancestor of [p] becomes a directory. *)
Definition make_dirs (f : t) (p : path) : t :=
  fun q =>
    match f q, strip_prefix q p with
    | None, Some _ => Some Dir
    | n, _ => n
    end.

End FS.

(** ** Configuration values

    The decoration entries come straight out of YAML: a string, or [None]
    for a key without a value; a key can also be absent. *)
Inductive pyval :=
| PyNone
| PyStr (s : string).

(** Truth value of [v] in [if v:]. *)
Definition truthy (v : pyval) : bool :=
  match v with
  | PyNone => false
  | PyStr s => negb (String.eqb s "")
  end.

(** What [%s] prints for [v]. *)
Definition format_s (v : pyval) : string :=
  match v with
  | PyNone => "None"
  | PyStr s => s
  end.

(** [Path(v)]. *)
Definition Path_of_val (v : pyval) : result Pathlib.PurePath :=
  match v with
  | PyNone => Raise TypeError
  | PyStr s => Ok (Pathlib.Path s)
  end.

(** The dictionary [load_config] returns.  Reading and merging the YAML
    files is left to the surroundings; the entries [load_config] itself
    computes or relies on are typed fields, [local_path] already made
    absolute, and the other keys are in [items]. *)
Record Config := mkConfig {
  local_path : Pathlib.PurePath;
  reveal_version : string;
  reveal_extra : list (string * string);
  items : gmap string pyval
}.

(** [config['output_path']], which [load_config] sets to
    [config['local_path'] / 'out']. *)
Definition output_path (config : Config) : Pathlib.PurePath :=
  local_path config // "out".

(** [config[key]] for the keys kept in [items]. *)
Definition getitem (config : Config) (key : string) : result pyval :=
  match items config !! key with
  | Some v => Ok v
  | None => Raise (KeyError key)
  end.

(** ** The world: what the module reads and changes outside itself *)

(** Mutable state: the file system and the HTTP requests sent so far. *)
Record World := mkWorld {
  fs : FS.t;
  requests : list string
}.

(** What the surroundings answer; none of it is decided by the module. *)
Record Env := mkEnv {
  cwd : FS.path;                                  (* working directory *)
  loaded : result Config;                         (* load_config() *)
  releases : result (list (gmap string string));  (* the release index *)
  download : string -> result string;             (* the bytes at a URL *)
  tmpname : string;                               (* urlretrieve's file *)
  untar : string -> result (list TarInfo);        (* decoding an archive *)
  extract_fault : option nat;    (* extractall raises after that many *)
  rsync_fault : bool;
  pandoc : option FS.node -> list string -> result string
}.

(** [Path.exists()].  The empty path is the working directory of the
    running process, which [os.stat] always finds. *)
Definition path_exists (env : Env) (w : World) (p : Pathlib.PurePath) : bool :=
  match Pathlib.root p, Pathlib.names p with
  | "", [] => true
  | _, _ =>
      match FS.stat (fs w) (FS.abs (cwd env) p) with
      | Some _ => true
      | None => false
      end
  end.

(** ** [tweak_html]

    The body is six guarded blocks run in sequence over the list of
    lines; each block is a definition of its own here. *)
Section TweakHtml.

Context (env : Env) (w : World).
Local Open Scope py_scope.

Import Str.

Definition stylesheet_marker : string := "stylesheet.*id=" +:+ quoted "theme".
Definition slides_marker : string := "div class=" +:+ quoted "slides".
Definition reveal_marker : string := "<div class=" +:+ quoted "reveal" +:+ ">".
Definition section_marker : string := "<section>".

Definition link_line (v : pyval) : string :=
  "<link rel=" +:+ quoted "stylesheet" +:+ " href=" +:+ quoted (format_s v) +:+ ">".
Definition warmup_line (v : pyval) : string :=
  "<section><img src=" +:+ quoted (format_s v) +:+ " /></section>".
Definition footer_line (v : pyval) : string :=
  "<div class=" +:+ quoted "footer" +:+ ">" +:+ format_s v +:+ "</div>".
Definition header_line (v : pyval) : string :=
  "<div class=" +:+ quoted "header" +:+ ">" +:+ format_s v +:+ "</div>".
Definition logo_line (v : pyval) : string :=
  "<div class=" +:+ quoted "logo" +:+ "><img src=" +:+ quoted (format_s v) +:+ " /></div>".
Definition background_tag (v : pyval) : string :=
  "<section data-background=" +:+ quoted (format_s v) +:+ ">".

(** [for index in indexes: html.insert(index + 1, text)]: the indexes
    were computed before the loop, the list grows while it runs. *)
Definition insert_after_each (indexes : list nat) (text : string)
           (html : list string) : list string :=
  fold_left (fun html index => PyList.insert html (index + 1) text) indexes html.

(** [for index in indexes: html[index] = html[index].replace(old, new)]. *)
Definition replace_at_each (indexes : list nat) (old new : string)
           (html : list string) : list string :=
  fold_left (fun html index => PyList.update html index (replace old new))
            indexes html.

(** [Path(config[key]).exists()]. *)
Definition path_guard (config : Config) (key : string) : result (bool * pyval) :=
  do v <- getitem config key;
  do p <- Path_of_val v;
  Ok (path_exists env w p, v).

Definition tweak_custom_css (config : Config) (html : list string)
  : result (list string) :=
  do v <- getitem config "custom_css";
  if truthy v then
    do index <- PyList.item0 (find_indexes html stylesheet_marker);
    Ok (PyList.insert html (index + 1) (link_line v))
  else Ok html.

Definition tweak_warmup (config : Config) (html : list string)
  : result (list string) :=
  do g <- path_guard config "warmup";
  if fst g then
    do index <- PyList.item0 (find_indexes html slides_marker);
    Ok (PyList.insert html (index + 1) (warmup_line (snd g)))
  else Ok html.

Definition tweak_footer (config : Config) (html : list string)
  : result (list string) :=
  do v <- getitem config "footer";
  if truthy v then
    Ok (insert_after_each (find_indexes html reveal_marker) (footer_line v) html)
  else Ok html.

Definition tweak_header (config : Config) (html : list string)
  : result (list string) :=
  do v <- getitem config "header";
  if truthy v then
    Ok (insert_after_each (find_indexes html reveal_marker) (header_line v) html)
  else Ok html.

Definition tweak_logo (config : Config) (html : list string)
  : result (list string) :=
  do g <- path_guard config "logo";
  if fst g then
    Ok (insert_after_each (find_indexes html reveal_marker) (logo_line (snd g)) html)
  else Ok html.

Definition tweak_background (config : Config) (html : list string)
  : result (list string) :=
  do g <- path_guard config "background";
  if fst g then
    Ok (replace_at_each (find_indexes html section_marker)
                        section_marker (background_tag (snd g)) html)
  else Ok html.

Definition tweak_html (html : string) (config : Config) : result string :=
  let html := splitlines html in
  do html <- tweak_custom_css config html;
  do html <- tweak_warmup config html;
  do html <- tweak_footer config html;
  do html <- tweak_header config html;
  do html <- tweak_logo config html;
  do html <- tweak_background config html;
  Ok (join nl html).

End TweakHtml.

(** ** Effectful code: world passing with exceptions

    A computation takes the world and returns the world it leaves behind
    together with its value or the exception it raised. *)
Definition IO (A : Type) : Type := World -> World * result A.

Definition ret {A} (a : A) : IO A := fun w => (w, Ok a).
Definition raise {A} (e : exn) : IO A := fun w => (w, Raise e).
Definition lift {A} (r : result A) : IO A := fun w => (w, r).

Definition bind {A B} (m : IO A) (k : A -> IO B) : IO B :=
  fun w =>
    match m w with
    | (w', Ok a) => k a w'
    | (w', Raise e) => (w', Raise e)
    end.

Declare Scope io_scope.
Delimit Scope io_scope with io.
Notation "'run' x <- m ; k" := (bind m (fun x => k))
  (at level 10, x name, m at level 100, k at level 200) : io_scope.
Notation "'exec' m ; k" := (bind m (fun _ => k))
  (at level 10, m at level 100, k at level 200) : io_scope.

Definition set_fs (w : World) (f : FS.t) : World :=
  {| fs := f; requests := requests w |}.

Section Runtime.

Context (env : Env).
Local Open Scope io_scope.

Definition here (p : Pathlib.PurePath) : FS.path := FS.abs (cwd env) p.

(** [p.exists()]. *)
Definition Path_exists (p : Pathlib.PurePath) : IO bool :=
  fun w => (w, Ok (path_exists env w p)).

(** The non-empty prefixes of a path, shortest first. *)
Fixpoint ancestors (done : FS.path) (todo : FS.path) : list FS.path :=
  match todo with
  | [] => []
  | c :: rest => (done ++ [c]) :: ancestors (done ++ [c]) rest
  end.

(** [p.mkdir(parents=True, exist_ok=True)]: whatever is already on the
    way has to be a directory. *)
Definition Path_mkdir_parents (p : Pathlib.PurePath) : IO unit :=
  fun w =>
    let q := here p in
    let passable a :=
      match FS.lstat (fs w) a with
      | None => true
      | Some _ => FS.is_dir (fs w) a
      end in
    if forallb passable (ancestors [] q)
    then (set_fs w (FS.make_dirs (fs w) q), Ok tt)
    else (w, Raise FileExistsError).

(** [os.remove(p)] and [p.unlink()]: the link itself goes, not its
    target. *)
Definition Path_unlink (p : Pathlib.PurePath) : IO unit :=
  fun w =>
    let q := here p in
    match FS.lstat (fs w) q with
    | None => (w, Raise FileNotFoundError)
    | Some FS.Dir => (w, Raise IsADirectoryError)
    | Some _ => (set_fs w (FS.set (fs w) q None), Ok tt)
    end.

Definition os_remove (name : string) : IO unit :=
  Path_unlink (Pathlib.Path name).

(** [link.symlink_to(target)]: refused when anything, a dangling link
    included, already has that name. *)
Definition Path_symlink_to (link target : Pathlib.PurePath) : IO unit :=
  fun w =>
    let q := here link in
    match FS.lstat (fs w) q with
    | Some _ => (w, Raise FileExistsError)
    | None =>
        if FS.is_dir (fs w) (removelast q)
        then (set_fs w (FS.set (fs w) q (Some (FS.Symlink target))), Ok tt)
        else (w, Raise FileNotFoundError)
    end.

(** Opening [p] for writing: the path the data ends up at. *)
Definition open_for_write (p : Pathlib.PurePath) (w : World) : result FS.path :=
  match FS.resolve FS.max_links (fs w) (here p) with
  | None => Raise SymlinkLoop
  | Some q =>
      match FS.lstat (fs w) q with
      | Some FS.Dir => Raise IsADirectoryError
      | _ => if FS.is_dir (fs w) (removelast q) then Ok q
             else Raise FileNotFoundError
      end
  end.

(** [p.write_text(data)]. *)
Definition Path_write_text (p : Pathlib.PurePath) (data : string) : IO unit :=
  fun w =>
    match open_for_write p w with
    | Raise e => (w, Raise e)
    | Ok q => (set_fs w (FS.set (fs w) q (Some (FS.File data))), Ok tt)
    end.

(** [with open(p, 'a') as f: f.write(data)]. *)
Definition append_text (p : Pathlib.PurePath) (data : string) : IO unit :=
  fun w =>
    match open_for_write p w with
    | Raise e => (w, Raise e)
    | Ok q =>
        let old := match FS.lstat (fs w) q with
                   | Some (FS.File s) => s
                   | _ => ""
                   end in
        (set_fs w (FS.set (fs w) q (Some (FS.File (old +:+ data)))), Ok tt)
    end.

(** An HTTP GET: the URL is recorded. *)
Definition http_get {A} (url : string) (answer : result A) : IO A :=
  fun w => ({| fs := fs w; requests := requests w ++ [url] |}, answer).

(** [urlretrieve(url)]: the bytes land in a temporary file whose name
    is returned. *)
Definition urlretrieve (url : string) : IO string :=
  run bytes <- http_get url (download env url);
  fun w =>
    (set_fs w (FS.set (fs w) (here (Pathlib.Path (tmpname env)))
                      (Some (FS.File bytes))),
     Ok (tmpname env)).

(** [tarfile.open(name)] followed by [tar.getmembers()]. *)
Definition tarfile_open (name : string) : IO (list TarInfo) :=
  fun w =>
    match FS.stat (fs w) (here (Pathlib.Path name)) with
    | None => (w, Raise FileNotFoundError)
    | Some (FS.File bytes) => (w, untar env bytes)
    | Some _ => (w, Raise IsADirectoryError)
    end.

(** Extraction of one member below [dest]. *)
Definition extract (dest : Pathlib.PurePath) (m : TarInfo) (f : FS.t) : FS.t :=
  let target := here (dest // name m) in
  FS.set (FS.make_dirs f (removelast target)) target
         (Some (if isdir m then FS.Dir else FS.File (data m))).

(** [tar.extractall(dest, members)]; the surroundings decide whether
    and after how many members it fails. *)
Definition extract_members (dest : Pathlib.PurePath) (h : Store) (members : list ref)
           (f : FS.t) : FS.t :=
  fold_left (fun f r => extract dest (h r) f) members f.

Definition extractall (dest : Pathlib.PurePath) (h : Store) (members : list ref)
  : IO unit :=
  fun w =>
    match extract_fault env with
    | None => (set_fs w (extract_members dest h members (fs w)), Ok tt)
    | Some n => (set_fs w (extract_members dest h (take n members) (fs w)),
                 Raise ExtractError)
    end.

End Runtime.

(** ** [latest_revealjs_release], [initialize_localdir],
       [markdown_to_reveal] and [generate] *)
Section Module_.

Context (env : Env).
Local Open Scope io_scope.

Definition releases_url : string :=
  "https://api.github.com/repos/hakimel/reveal.js/releases".

Definition latest_revealjs_release : IO string :=
  run index <- http_get releases_url (releases env);
  run latest <- lift (PyList.item0 index);
  match latest !! "tag_name" with
  | Some tag => ret tag
  | None => raise (KeyError "tag_name")
  end.

(** The archive URL: the template with the version filled in. *)
Definition archive_url (reveal_version : string) : string :=
  "https://github.com/hakimel/reveal.js/archive/" +:+ reveal_version +:+ ".tar.gz".

(** The body of [if not reveal_path.exists():]. *)
Definition fetch_revealjs (reveal_path : Pathlib.PurePath) (reveal_version : string)
  : IO unit :=
  run reveal_version <-
    (if String.eqb reveal_version "latest"
     then latest_revealjs_release
     else ret reveal_version);
  let url := archive_url reveal_version in
  run reveal_tar <- urlretrieve env url;
  run infos <- tarfile_open env reveal_tar;
  let members := clean_revealjs_tar_members (getmembers_store infos) (getmembers infos) in
  exec extractall env reveal_path (fst members) (snd members);
  os_remove env reveal_tar.

Definition initialize_localdir (localdir : Pathlib.PurePath) (reveal_version : string)
  : IO Pathlib.PurePath :=
  (* Initialize local directory *)
  let outdir := localdir // "out" in
  exec Path_mkdir_parents env outdir;
  (* Download reveal.js *)
  let reveal_path := localdir // reveal_version in
  run found <- Path_exists env reveal_path;
  exec (if negb found then fetch_revealjs reveal_path reveal_version else ret tt);
  let symlink := outdir // "revealjs" in
  run found <- Path_exists env symlink;
  exec (if found then Path_unlink env symlink else ret tt);
  exec Path_symlink_to env symlink reveal_path;
  ret outdir.

(** The [-V key=value] pairs appended for [reveal_extra]. *)
Definition extra_args (reveal_extra : list (string * string)) : list string :=
  ["-s"; "--slide-level=2"; "-V"; "revealjs-url=revealjs"]
    ++ flat_map (fun kv => ["-V"; fst kv +:+ "=" +:+ snd kv]) reveal_extra.

(** [convert_file] is pandoc: it is handed the source file as it is on
    disk and the extra arguments. *)
Definition markdown_to_reveal (input_file : Pathlib.PurePath)
           (reveal_extra : list (string * string)) : IO string :=
  fun w =>
    (w, pandoc env (FS.stat (fs w) (here env input_file)) (extra_args reveal_extra)).

(** [p.resolve()]. *)
Definition Path_resolve (p : Pathlib.PurePath) : IO FS.path :=
  fun w =>
    match FS.resolve FS.max_links (fs w) (here env p) with
    | Some q => (w, Ok q)
    | None => (w, Raise SymlinkLoop)
    end.

(** [--exclude revealjs --exclude .git]: a name pattern without slash
    holds for that name at any depth, and for everything below it. *)
Definition rsync_excluded (rel : FS.path) : bool :=
  existsb (fun c => String.eqb c "revealjs" || String.eqb c ".git") rel.

(** [rsync --delete -a src/ dst/]: below [dst], whatever is not
    excluded becomes what [src] has at the same relative path, which
    removes what [src] does not have. *)
Definition rsync_mirror (src dst : FS.path) (f : FS.t) : FS.t :=
  fun p =>
    match FS.strip_prefix dst p with
    | None => f p
    | Some [] => match f p with
                 | None => Some FS.Dir
                 | n => n
                 end
    | Some rel => if rsync_excluded rel then f p else f (src ++ rel)
    end.

(** [check_output(command)] for the rsync command line of [generate]. *)
Definition rsync (src : FS.path) (dst : Pathlib.PurePath) : IO unit :=
  fun w =>
    if rsync_fault env then (w, Raise CalledProcessError)
    else (set_fs w (rsync_mirror src (here env dst) (fs w)), Ok tt).

(** [load_config()]; its [print] calls, like those of [generate], leave
    no trace in the world. *)
Definition load_config : IO Config := lift (loaded env).

Definition generate : IO unit :=
  (* Reload config *)
  run config <- load_config;
  (* Initialize localdir *)
  run reveal_path <- initialize_localdir (local_path config) (reveal_version config);
  let input_file := Pathlib.Path "presentation.md" in
  (* rsync *)
  run source <- Path_resolve input_file;
  exec rsync (removelast source) (output_path config);
  (* Convert from markdown *)
  run output <- markdown_to_reveal input_file (reveal_extra config);
  (* HTML substitution *)
  run output <- (fun w => (w, tweak_html env w output config));
  (* Write index.html *)
  let index := output_path config // "index.html" in
  exec Path_write_text env index output;
  append_text env (output_path config // ".reload") ("x" +:+ Str.nl).

End Module_.

(** ** The watchdog [Handler]

    Time is a count of clock ticks.  A [threading.Timer] is a thread: it
    is alive from [start()] until the function it runs after its interval
    has returned, so the time a build takes is part of the model; the
    build started at tick [t] runs for [build_time t] ticks. *)
Module Watch.

Record Timer := mkTimer {
  interval : Z;
  started : option Z      (* when start() was called *)
}.

Definition start (t : Timer) (now : Z) : Timer :=
  {| interval := interval t; started := Some now |}.

Definition is_alive (build_time : Z -> Z) (t : Timer) (now : Z) : bool :=
  match started t with
  | None => false
  | Some s =>
      let fire := (s + interval t)%Z in
      (now <? fire + build_time fire)%Z
  end.

Record Handler := mkHandler {
  period : Z;
  timer : Timer
}.

Definition set_timer (h : Handler) : Handler :=
  {| period := period h; timer := {| interval := period h; started := None |} |}.

(** [Handler(period)]. *)
Definition init (period : Z) : Handler :=
  set_timer {| period := period; timer := {| interval := period; started := None |} |}.

(** [on_any_event] at tick [now].  The second component is the tick at
    which the timer started by this call, if any, will call
    [generate]. *)
Definition on_any_event (build_time : Z -> Z) (h : Handler) (now : Z)
  : Handler * option Z :=
  if is_alive build_time (timer h) now then (h, None)
  else
    let h := set_timer h in
    let h := {| period := period h; timer := start (timer h) now |} in
    (h, Some (now + interval (timer h))%Z).

(** The observer thread delivering events one by one; [builds] are the
    ticks at which [generate] gets called. *)
Record Watcher := mkWatcher {
  handler : Handler;
  builds : list Z
}.

Definition deliver (build_time : Z -> Z) (s : Watcher) (now : Z) : Watcher :=
  match on_any_event build_time (handler s) now with
  | (h, Some fire) => {| handler := h; builds := builds s ++ [fire] |}
  | (h, None) => {| handler := h; builds := builds s |}
  end.

Definition deliver_all (build_time : Z -> Z) (s : Watcher) (events : list Z) : Watcher :=
  fold_left (deliver build_time) events s.

Definition fresh (period : Z) : Watcher :=
  {| handler := init period; builds := [] |}.

(** A burst: events in time order, all less than one period after the
    first. *)
Definition burst (period : Z) (t0 : Z) (later : list Z) : Prop :=
  Forall (fun t => (t0 <= t < t0 + period)%Z) later.

End Watch.

(** ** Vocabulary of the statements *)

(** A name component without separator. *)
Definition no_sep (w : string) : Prop := Str.mem Pathlib.sep w = false.

(** A clean component: what [Path] keeps as a name. *)
Definition component (w : string) : Prop := no_sep w /\ Pathlib.is_name w = true.

(** What the loop has checked of a name it keeps, read off the name it
    leaves behind: relative, not empty, not starting with [test]. *)
Definition kept_name (n : string) : Prop :=
  let p := Pathlib.Path n in
  Pathlib.is_absolute p = false /\
  Pathlib.parts p <> [] /\
  head (Pathlib.parts p) <> Some "test".

(** [re.search(regex, line)] finds something. *)
Definition matches (regex : string) (line : string) : Prop :=
  Re.search regex line = true.

(** [s] has the newline as its only line boundary and does not end with
    one: the strings [splitlines] and [join] give back unchanged. *)
Fixpoint plain (s : string) : bool :=
  match s with
  | "" => true
  | String c s' =>
      if Str.is_linebreak c
      then Ascii.eqb c Str.LF && negb (String.eqb s' "") && plain s'
      else plain s'
  end.

(** Where the cleaned members of an archive are extracted to below
    [dest]. *)
Definition extraction_targets (env : Env) (dest : Pathlib.PurePath) (infos : list TarInfo)
  : list FS.path :=
  let members := clean_revealjs_tar_members (getmembers_store infos) (getmembers infos) in
  map (fun r => here env (dest // name (fst members r))) (snd members).

(** A string-guarded decoration is off: the entry is there and falsy. *)
Definition string_off (config : Config) (key : string) : Prop :=
  exists v, items config !! key = Some v /\ truthy v = false.

(** A path-guarded decoration is off: the entry is a string naming
    nothing on disk. *)
Definition path_off (env : Env) (w : World) (config : Config) (key : string) : Prop :=
  exists s, items config !! key = Some (PyStr s) /\
            path_exists env w (Pathlib.Path s) = false.

(** An entry that is empty or missing: absent, [None], or the empty
    string. *)
Definition empty_or_missing (config : Config) (key : string) : Prop :=
  items config !! key = None \/
  items config !! key = Some PyNone \/
  items config !! key = Some (PyStr "").

Definition decoration_keys : list string :=
  ["custom_css"; "warmup"; "footer"; "header"; "logo"; "background"].

(** ** Sample worlds

    Concrete inputs on which the statements below are exercised. *)
Module Sample.

Fixpoint of_list (l : list (FS.path * FS.node)) : FS.t :=
  fun p =>
    match l with
    | [] => None
    | (q, n) :: rest => if decide (p = q) then Some n else of_list rest p
    end.

Definition localdir : Pathlib.PurePath := Pathlib.Path "/home/u/.markdownreveal".

Definition config (version : string) (decorations : list (string * pyval)) : Config :=
  {| local_path := localdir;
     reveal_version := version;
     reveal_extra := [("theme", "black")];
     items := list_to_map decorations |}.

(** Every decoration switched off: empty strings for the text ones,
    names of files that are not there for the path ones. *)
Definition off : list (string * pyval) :=
  [("custom_css", PyStr ""); ("warmup", PyStr "warmup.svg");
   ("footer", PyStr ""); ("header", PyStr "");
   ("logo", PyStr "logo.svg"); ("background", PyStr "background.svg")].

(** Every decoration entry the empty string. *)
Definition blank : list (string * pyval) :=
  map (fun key => (key, PyStr "")) decoration_keys.

Definition footer_only : list (string * pyval) :=
  [("custom_css", PyStr ""); ("warmup", PyStr "warmup.svg");
   ("footer", PyStr "&copy; me"); ("header", PyStr "");
   ("logo", PyStr "logo.svg"); ("background", PyStr "background.svg")].

Definition css_only : list (string * pyval) :=
  [("custom_css", PyStr "custom.css"); ("warmup", PyStr "warmup.svg");
   ("footer", PyStr ""); ("header", PyStr "");
   ("logo", PyStr "logo.svg"); ("background", PyStr "background.svg")].

Definition tar : list TarInfo :=
  [ mkTarInfo "reveal.js-3.4.1" true "";
    mkTarInfo "reveal.js-3.4.1/css/reveal.css" false "css";
    mkTarInfo "reveal.js-3.4.1/test/test.js" false "js";
    mkTarInfo "reveal.js-3.4.1/js/reveal.js" false "js" ].

(** Surroundings: the release index answers with 3.4.1 first, every
    download succeeds, and the caller chooses the configuration, whether
    extraction fails, and what the converter does. *)
Definition env (conf : Config) (fault : option nat) (converted : result string) : Env :=
  {| cwd := ["home"; "u"; "talk"];
     loaded := Ok conf;
     releases := Ok [ {[ "tag_name" := "3.4.1" ]}; {[ "tag_name" := "3.4.0" ]} ];
     download := fun _ => Ok "archive bytes";
     tmpname := "/tmp/tmpk3x9";
     untar := fun _ => Ok tar;
     extract_fault := fault;
     rsync_fault := false;
     pandoc := fun _ _ => converted |}.

(** A home directory with a presentation in it and nothing built yet. *)
Definition start : World :=
  {| fs := of_list [ (["home"], FS.Dir); (["home"; "u"], FS.Dir);
                     (["home"; "u"; "talk"], FS.Dir);
                     (["home"; "u"; "talk"; "presentation.md"], FS.File "# Title");
                     (["tmp"], FS.Dir) ];
     requests := [] |}.

Definition plain_env : Env := env (config "3.4.1" off) None (Ok "").

(** A page with the reveal container marker on two lines. *)
Definition two_reveal : string :=
  Str.join Str.nl [reveal_marker; "<p>a</p>"; reveal_marker; "<p>b</p>"].

(** A page head with the theme stylesheet on its second line. *)
Definition themed : string :=
  Str.join Str.nl
    [ "<head>";
      "<link rel=" +:+ Str.quoted "stylesheet" +:+ " href=" +:+ Str.quoted "black.css"
        +:+ " id=" +:+ Str.quoted "theme" +:+ ">";
      "</head>" ].

End Sample.

(** More sample worlds: the local directory after earlier runs. *)
Module Sample2.

Import Sample.

Definition home : list (FS.path * FS.node) :=
  [ (["home"], FS.Dir); (["home"; "u"], FS.Dir);
    (["home"; "u"; "talk"], FS.Dir);
    (["home"; "u"; "talk"; "presentation.md"], FS.File "# Title");
    (["tmp"], FS.Dir);
    (["home"; "u"; ".markdownreveal"], FS.Dir);
    (["home"; "u"; ".markdownreveal"; "out"], FS.Dir) ].

(** Version 3.4.1 is on disk; the reference still names 3.3.0, whose
    directory has been deleted since. *)
Definition switched : World :=
  {| fs := of_list
             (home ++
              [ (["home"; "u"; ".markdownreveal"; "3.4.1"], FS.Dir);
                (["home"; "u"; ".markdownreveal"; "out"; "revealjs"],
                 FS.Symlink (localdir // "3.3.0")) ]);
     requests := [] |}.

(** The newest release, 3.4.1, was fetched under its own name before. *)
Definition has_341 : World :=
  {| fs := of_list
             (home ++ [ (["home"; "u"; ".markdownreveal"; "3.4.1"], FS.Dir) ]);
     requests := [] |}.

(** A finished build: a page and a reload file in the output
    directory. *)
Definition built : World :=
  {| fs := of_list
             (home ++
              [ (["home"; "u"; ".markdownreveal"; "3.4.1"], FS.Dir);
                (["home"; "u"; ".markdownreveal"; "out"; "revealjs"],
                 FS.Symlink (localdir // "3.4.1"));
                (["home"; "u"; ".markdownreveal"; "out"; "presentation.md"],
                 FS.File "# Title");
                (["home"; "u"; ".markdownreveal"; "out"; "index.html"],
                 FS.File "<p>last good deck</p>");
                (["home"; "u"; ".markdownreveal"; "out"; ".reload"],
                 FS.File ("x" +:+ Str.nl)) ]);
     requests := [] |}.

End Sample2.

From Stdlib Require Import Sorted.

(** ** [update_config] and [load_config]

    The configuration as [yaml.load] hands it over: nested dictionaries
    in insertion order.  [load_config] afterwards stores [Path] objects
    in it. *)
Module Configuration.

Inductive value :=
| VNone
| VStr (s : string)
| VOther (text : string)          (* a number, a boolean, a list *)
| VPath (p : Pathlib.PurePath)
| VDict (d : dict)
with dict :=
| DNil
| DCons (key : string) (v : value) (rest : dict).

(** Exceptions: the ones of the rest of the module and [AttributeError]. *)
Inductive error :=
| AttributeError
| Builtin (e : exn).

Inductive outcome (A : Type) :=
| Returns (a : A)
| Raises (e : error).
Arguments Returns {A} a.
Arguments Raises {A} e.

Definition obind {A B} (m : outcome A) (k : A -> outcome B) : outcome B :=
match m with
| Returns a => k a
| Raises e => Raises e
end.

Declare Scope cfg_scope.
Delimit Scope cfg_scope with cfg.
Notation "'let!' x := m 'in' k" := (obind m (fun x => k))
(at level 10, x name, m at level 100, k at level 200) : cfg_scope.
Local Open Scope cfg_scope.

(** [d.get(key)]. *)
Fixpoint get (d : dict) (key : string) : option value :=
match d with
| DNil => None
| DCons k v rest => if String.eqb k key then Some v else get rest key
end.

(** [d[key] = v]: an existing key keeps its place, a new one goes to the
  end. *)
Fixpoint set (d : dict) (key : string) (v : value) : dict :=
match d with
| DNil => DCons key v DNil
| DCons k v' rest =>
    if String.eqb k key then DCons k v rest else DCons k v' (set rest key v)
end.

(** [list(d)]: the keys in order. *)
Fixpoint keys (d : dict) : list string :=
match d with
| DNil => []
| DCons k _ rest => k :: keys rest
end.

(** [t[key]] for any object [t]. *)
Definition getitem (t : value) (key : string) : outcome value :=
match t with
| VDict d =>
    match get d key with
    | Some v => Returns v
    | None => Raises (Builtin (KeyError key))
    end
| _ => Raises (Builtin TypeError)
end.

(** [t[key] = v] for any object [t]. *)
Definition setitem (t : value) (key : string) (v : value) : outcome value :=
match t with
| VDict d => Returns (VDict (set d key v))
| _ => Raises (Builtin TypeError)
end.

(** [t.get(key, {})] for any object [t]. *)
Definition get_or_empty (t : value) (key : string) : outcome value :=
match t with
| VDict d =>
    match get d key with
    | Some v => Returns v
    | None => Returns (VDict DNil)
    end
| _ => Raises AttributeError
end.

(** The loop of [update_config] over [config.items()]; [template] is
  whatever object the caller passed. *)
Fixpoint update_items (template : value) (config : dict) {struct config}
: outcome value :=
match config with
| DNil => Returns template
| DCons key v rest =>
    match v with
    | VDict sub =>
        let! inner := get_or_empty template key in
        let! recurse := update_items inner sub in
        let! template := setitem template key recurse in
        update_items template rest
    | _ =>
        let! template := setitem template key v in
        update_items template rest
    end
end.

Definition update_config (template config : value) : outcome value :=
match config with
| VDict items => update_items template items
| _ => Raises AttributeError
end.

(** [Path.home() / v]. *)
Definition under (home : Pathlib.PurePath) (v : value) : outcome Pathlib.PurePath :=
match v with
| VStr s => Returns (home // s)
| VPath p => Returns (home // Pathlib.str p)
| _ => Raises (Builtin TypeError)
end.

Section LoadConfig.

(** The surroundings of [load_config]: the file system, the home
directory, the packaged template as [yaml.load] returns it, and
[yaml.load] on the text of a file. *)
Context (env : Env) (w : World).
Context (home : Pathlib.PurePath).
Context (template : outcome value).
Context (yaml_load : string -> outcome value).

(** [yaml.load(open(name))]. *)
Definition load_file (name : string) : outcome value :=
match FS.stat (fs w) (here env (Pathlib.Path name)) with
| Some (FS.File text) => yaml_load text
| Some _ => Raises (Builtin IsADirectoryError)
| None => Raises (Builtin FileNotFoundError)
end.

(** The first statements of [load_config]: the template, updated with
the project's [config.yaml] when there is one.  The call mutates the
template and its value is dropped; here the value stands for the
mutated dictionary. *)
Definition merged_config : outcome value :=
let! config := template in
if path_exists env w (Pathlib.Path "config.yaml")
then let! override := load_file "config.yaml" in
   update_config config override
else Returns config.

Definition load_config : outcome value :=
let! config := merged_config in
let! configured := getitem config "local_path" in
let! local_path := under home configured in
let! config := setitem config "local_path" (VPath local_path) in
let! config := setitem config "output_path" (VPath (local_path // "out")) in
let! theme := getitem config "theme" in
let! reveal_extra := getitem config "reveal_extra" in
let! reveal_extra := setitem reveal_extra "theme" theme in
let! config := setitem config "reveal_extra" reveal_extra in
Returns config.

End LoadConfig.

(** A dictionary written as a list of items. *)
Fixpoint of_items (items : list (string * value)) : dict :=
match items with
| [] => DNil
| (k, v) :: rest => DCons k v (of_items rest)
end.

(** Sample files: a packaged template and a project's [config.yaml]. *)
Definition sample_template : dict :=
of_items
  [ ("local_path", VStr ".markdownreveal");
    ("reveal_version", VStr "latest");
    ("theme", VStr "black");
    ("footer", VStr "");
    ("reveal_extra",
     VDict (of_items [("slideNumber", VOther "true"); ("theme", VStr "white")])) ].

Definition sample_override : dict :=
of_items
  [ ("theme", VStr "night");
    ("footer", VStr "me");
    ("reveal_extra", VDict (of_items [("controls", VOther "false")]));
    ("logo", VStr "logo.png") ].

(** A [config.yaml] that puts a mapping where the template has a
  string. *)
Definition sample_clash : dict :=
of_items [ ("footer", VDict (of_items [("text", VStr "me")])) ].

(** A project directory with a [config.yaml] in it; [yaml.load] of its
  text is [answer]. *)
Definition sample_world : World :=
{| fs := Sample.of_list
           [ (["home"], FS.Dir); (["home"; "u"], FS.Dir);
             (["home"; "u"; "talk"], FS.Dir);
             (["home"; "u"; "talk"; "config.yaml"], FS.File "theme: night") ];
   requests := [] |}.

Definition sample_home : Pathlib.PurePath := Pathlib.Path "/home/u".

End Configuration.

(** ** Vocabulary of the further statements *)

(** What [clean_revealjs_tar_members] asks of a member's name to keep
    the member: a relative path of at least two parts whose second part
    is not [test]. *)
Definition survives (n : string) : bool :=
  let path := Pathlib.Path n in
  negb (Pathlib.is_absolute path) &&
  match tail (Pathlib.parts path) with
  | [] => false
  | p0 :: _ => negb (String.eqb p0 "test")
  end.

(** What the background block does to one line. *)
Definition with_background (v : pyval) (line : string) : string :=
  if Re.search section_marker line
  then Str.replace section_marker (background_tag v) line
  else line.

(** A computation that sends no request, however it ends. *)
Definition quiet {A} (m : IO A) : Prop :=
  forall w, requests (fst (m w)) = requests w.

(** Builds that keep their distance: each is due at least one period
    after the build before it has ended. *)
Fixpoint spaced (build_time : Z -> Z) (period : Z) (builds : list Z) : Prop :=
  match builds with
  | b :: (b' :: _) as later =>
      (b + build_time b + period <= b')%Z /\ spaced build_time period later
  | _ => True
  end.

(** What holds of a handler made with period [p] after any events: its
    period and its timer's interval are [p], its builds keep their
    distance, and its timer was started one period before the last of
    them. *)
Definition steady (build_time : Z -> Z) (p : Z) (s : Watch.Watcher) : Prop :=
  Watch.period (Watch.handler s) = p /\
  Watch.interval (Watch.timer (Watch.handler s)) = p /\
  spaced build_time p (Watch.builds s) /\
  match Watch.started (Watch.timer (Watch.handler s)) with
  | None => Watch.builds s = []
  | Some t => last (Watch.builds s) = Some (t + p)%Z
  end.

(** Further sample inputs. *)
Module Sample3.

(** Footer and header set; the logo entry is the empty path, which
  exists. *)
Definition stacked : list (string * pyval) :=
[("custom_css", PyStr ""); ("warmup", PyStr "warmup.svg");
 ("footer", PyStr "me"); ("header", PyStr "talk");
 ("logo", PyStr ""); ("background", PyStr "background.svg")].

(** A page with the reveal marker in its second line. *)
Definition one_reveal : list string := ["<body>"; reveal_marker; "<p>a</p>"].

End Sample3.

(** * Theorems *)

(** ** The runtime model on concrete inputs *)

Example splitlines_mixed_boundaries :
  Str.splitlines ("a" +:+ String Str.CR Str.nl +:+ "b" +:+ Str.nl +:+ Str.nl +:+ "c" +:+ Str.nl)
  = ["a"; "b"; ""; "c"].
Proof. reflexivity. Qed.

Example split_keeps_empty_fields : Str.split "/" "/a//b/" = [""; "a"; ""; "b"; ""].
Proof. reflexivity. Qed.

Example replace_every_occurrence :
  Str.replace "<section>" "<s>" "x<section><section>y<section" = "x<s><s>y<section".
Proof. reflexivity. Qed.

Example Path_drops_dots_and_empty_names :
  Pathlib.Path "reveal.js-3.4.1/./css//reveal.css/"
  = Pathlib.mkPath "" ["reveal.js-3.4.1"; "css"; "reveal.css"].
Proof. by vm_compute. Qed.

Example Path_roots :
  Pathlib.parts (Pathlib.Path "/a/../b") = ["/"; "a"; ".."; "b"] /\
  Pathlib.root (Pathlib.Path "//a") = "//" /\
  Pathlib.root (Pathlib.Path "///a") = "/" /\
  Pathlib.str (Pathlib.Path "") = ".".
Proof. by vm_compute. Qed.

Example truediv_absolute_operand :
  Pathlib.str (Pathlib.Path "/home/u" // "a/b") = "/home/u/a/b" /\
  Pathlib.str (Pathlib.Path "/home/u" // "/etc") = "/etc".
Proof. by vm_compute. Qed.

Example stylesheet_marker_wants_the_order :
  Re.search stylesheet_marker
    ("<link rel=" +:+ Str.quoted "stylesheet" +:+ " href=" +:+ Str.quoted "black.css"
       +:+ " id=" +:+ Str.quoted "theme" +:+ ">") = true /\
  Re.search stylesheet_marker
    ("<link id=" +:+ Str.quoted "theme" +:+ " rel=" +:+ Str.quoted "stylesheet" +:+ ">") = false.
Proof. by vm_compute. Qed.

Example find_indexes_reports_positions :
  find_indexes ["<section>"; "<p>"; "a <section> b"; "<section id=x>"] section_marker = [0; 2].
Proof. by vm_compute. Qed.

Example clean_sample_archive :
  let '(h, clean) := clean_revealjs_tar_members (getmembers_store Sample.tar)
                                                (getmembers Sample.tar) in
  map (fun r => name (h r)) clean = ["css/reveal.css"; "js/reveal.js"].
Proof. by vm_compute. Qed.

(** A first build on a fresh home directory: the release is fetched,
    the presentation directory mirrored, the page written and one line
    put into the reload file. *)
Example first_build :
  let env := Sample.env (Sample.config "3.4.1" Sample.off) None (Ok "<p>deck</p>") in
  let after := generate env Sample.start in
  let out := ["home"; "u"; ".markdownreveal"; "out"] in
  snd after = Ok tt /\
  requests (fst after) = [archive_url "3.4.1"] /\
  fs (fst after) (out ++ ["index.html"]) = Some (FS.File "<p>deck</p>") /\
  fs (fst after) (out ++ [".reload"]) = Some (FS.File ("x" +:+ Str.nl)) /\
  fs (fst after) (out ++ ["presentation.md"]) = Some (FS.File "# Title") /\
  fs (fst after) (out ++ ["revealjs"]) = Some (FS.Symlink (Sample.localdir // "3.4.1")) /\
  fs (fst after) ["tmp"; "tmpk3x9"] = None.
Proof. by vm_compute. Qed.

(** ** Strings and paths *)

Lemma split_no_sep (s : string) : Forall no_sep (Str.split Pathlib.sep s).
Proof.
  induction s as [|a s IH]; simpl.
  - by repeat constructor.
  - destruct (Ascii.eqb a Pathlib.sep) eqn:Ea.
    + constructor; [done|exact IH].
    + destruct (Str.split Pathlib.sep s) as [|w ws].
      { constructor; [|done]. unfold no_sep. simpl. by rewrite Ea. }
      inversion IH as [|? ? Hw Hws]; subst. constructor; [|done].
      unfold no_sep in *. simpl. by rewrite Ea.
Qed.

Lemma names_components (s : string) : Forall component (Pathlib.names (Pathlib.Path s)).
Proof.
  simpl. apply Forall_forall. intros w Hw.
  apply list_elem_of_filter in Hw as [Hn Hin]. split.
  - pose proof (split_no_sep s) as H. rewrite Forall_forall in H. by apply H.
  - by destruct (Pathlib.is_name w).
Qed.

Lemma split_component_app (w rest : string) :
  no_sep w ->
  Str.split Pathlib.sep (w +:+ String Pathlib.sep rest) = w :: Str.split Pathlib.sep rest.
Proof.
  unfold no_sep. induction w as [|a w IH]; simpl; intros Hw.
  - done.
  - apply orb_false_iff in Hw as [Ha Hw]. rewrite Ha, (IH Hw). done.
Qed.

Lemma split_component (w : string) : no_sep w -> Str.split Pathlib.sep w = [w].
Proof.
  unfold no_sep. induction w as [|a w IH]; simpl; intros Hw; [done|].
  apply orb_false_iff in Hw as [Ha Hw]. by rewrite Ha, (IH Hw).
Qed.

Lemma split_join (w : string) (ws : list string) :
  Forall no_sep (w :: ws) ->
  Str.split Pathlib.sep (Str.join "/" (w :: ws)) = w :: ws.
Proof.
  revert w. induction ws as [|v ws IH]; intros w Hall.
  - simpl. apply split_component. by inversion Hall.
  - inversion Hall as [|? ? Hw Hrest]; subst.
    change (Str.join "/" (w :: v :: ws)) with (w +:+ String Pathlib.sep (Str.join "/" (v :: ws))).
    rewrite split_component_app by done. by rewrite IH.
Qed.

Lemma root_of_component_app (w rest : string) :
  component w -> Pathlib.root_of (w +:+ rest) = "".
Proof.
  intros [Hs Hn]. destruct w as [|a w]; [done|].
  unfold no_sep in Hs. simpl in Hs. apply orb_false_iff in Hs as [Ha _].
  simpl. by rewrite Ha.
Qed.

Lemma join_cons_app (w : string) (ws : list string) :
  exists rest, Str.join "/" (w :: ws) = w +:+ rest.
Proof.
  destruct ws as [|v ws].
  - exists "". simpl. induction w as [|a w IH]; [done|].
    change (String a w +:+ "") with (String a (w +:+ "")). by rewrite <- IH.
  - by eexists.
Qed.

Lemma filter_components (ws : list string) :
  Forall component ws -> filter Pathlib.is_name ws = ws.
Proof.
  induction 1 as [|w ws [_ Hn] _ IH]; [done|].
  rewrite filter_cons. destruct (decide (Pathlib.is_name w)) as [|Hf]; [by rewrite IH|].
  by rewrite Hn in Hf.
Qed.

Lemma Path_join (w : string) (ws : list string) :
  Forall component (w :: ws) ->
  Pathlib.Path (Str.join "/" (w :: ws)) = Pathlib.mkPath "" (w :: ws).
Proof.
  intros Hall. unfold Pathlib.Path. f_equal.
  - destruct (join_cons_app w ws) as [rest ->].
    apply root_of_component_app. by inversion Hall.
  - rewrite split_join; [by apply filter_components|].
    eapply Forall_impl; [exact Hall|]. by intros ? [? _].
Qed.

Lemma Path_component (w : string) :
  component w -> Pathlib.Path w = Pathlib.mkPath "" [w].
Proof. intros H. apply (Path_join w []). by constructor. Qed.

Lemma Path_of_components_from (r : string) (ns ws : list string) :
  Forall component ws ->
  fold_left Pathlib.truediv ws (Pathlib.mkPath r ns) = Pathlib.mkPath r (ns ++ ws).
Proof.
  intros Hall. revert ns. induction Hall as [|w ws Hw _ IH]; intros ns; simpl.
  - by rewrite app_nil_r.
  - unfold Pathlib.truediv at 2. rewrite (Path_component w Hw). simpl.
    rewrite IH. by rewrite <- app_assoc.
Qed.

(** Writing clean components back as a string and parsing it again gives
    the components back. *)
Lemma Path_str_Path_of (w : string) (ws : list string) :
  Forall component (w :: ws) ->
  Pathlib.Path (Pathlib.str (Pathlib.Path_of (w :: ws))) = Pathlib.mkPath "" (w :: ws).
Proof.
  intros Hall. unfold Pathlib.Path_of.
  rewrite Path_of_components_from by done. simpl app.
  unfold Pathlib.str. cbn [Pathlib.root Pathlib.names].
  change ("" +:+ Str.join "/" (w :: ws)) with (Str.join "/" (w :: ws)).
  by apply Path_join.
Qed.

(** ** [clean_revealjs_tar_members] *)

Lemma parts_relative (p : Pathlib.PurePath) :
  Pathlib.is_absolute p = false -> Pathlib.parts p = Pathlib.names p.
Proof. unfold Pathlib.parts. by intros ->. Qed.

Lemma tail_components (s : string) :
  Forall component (tail (Pathlib.names (Pathlib.Path s))).
Proof.
  pose proof (names_components s) as H.
  destruct (Pathlib.names (Pathlib.Path s)); [done|]. by inversion H.
Qed.

(** The name written back for a kept member parses to the stripped
    parts. *)
Lemma stripped_name (old : string) (p0 : string) (ps : list string) :
  Pathlib.is_absolute (Pathlib.Path old) = false ->
  tail (Pathlib.parts (Pathlib.Path old)) = p0 :: ps ->
  Pathlib.Path (Pathlib.str (Pathlib.Path_of (p0 :: ps))) = Pathlib.mkPath "" (p0 :: ps).
Proof.
  intros Habs Htl. apply Path_str_Path_of.
  rewrite <- Htl, (parts_relative _ Habs). apply tail_components.
Qed.

Lemma stripped_name_kept (old : string) (p0 : string) (ps : list string) :
  Pathlib.is_absolute (Pathlib.Path old) = false ->
  tail (Pathlib.parts (Pathlib.Path old)) = p0 :: ps ->
  String.eqb p0 "test" = false ->
  kept_name (Pathlib.str (Pathlib.Path_of (p0 :: ps))).
Proof.
  intros Habs Htl Htest. unfold kept_name.
  rewrite (stripped_name old p0 ps Habs Htl). cbn. split_and!; [done..|].
  intros [= ->]. by rewrite String.eqb_refl in Htest.
Qed.

Lemma set_name_same (h : Store) (m : ref) (n : string) :
  name (set_name h m n m) = n.
Proof. unfold set_name. by rewrite Nat.eqb_refl. Qed.

Lemma set_name_other (h : Store) (m r : ref) (n : string) :
  r <> m -> set_name h m n r = h r.
Proof. unfold set_name. intros Hne. by apply Nat.eqb_neq in Hne as ->. Qed.

Lemma set_name_kept (h : Store) (m r : ref) (n : string) :
  kept_name n -> kept_name (name (h r)) -> kept_name (name (set_name h m n r)).
Proof.
  intros Hn Hr. destruct (decide (r = m)) as [->|Hne].
  - by rewrite set_name_same.
  - by rewrite set_name_other.
Qed.

(** The loop invariant: what one run of the loop over [members] does to
    the store and to the accumulated list. *)
Lemma clean_loop_spec (members : list ref) :
  forall (h : Store) (acc : list ref) (h' : Store) (out : list ref),
    clean_loop members h acc = (h', out) ->
    exists kept,
      out = acc ++ kept /\
      length kept <= length members /\
      (forall r, r ∈ kept -> r ∈ members) /\
      (forall r, r ∉ members -> h' r = h r) /\
      (forall r, kept_name (name (h r)) -> kept_name (name (h' r))) /\
      (forall r, r ∈ kept -> kept_name (name (h' r))) /\
      (NoDup members ->
       forall r, r ∈ kept ->
         Pathlib.is_absolute (Pathlib.Path (name (h r))) = false /\
         Pathlib.parts (Pathlib.Path (name (h' r)))
         = tail (Pathlib.parts (Pathlib.Path (name (h r))))).
Proof.
  induction members as [|m rest IH]; intros h acc h' out Hrun.
  - simpl in Hrun. injection Hrun as <- <-. exists [].
    rewrite app_nil_r. split_and!; try done; intros; set_solver.
  - simpl in Hrun.
    (* a skipped member leaves the state as it is *)
    assert (Hskip : clean_loop rest h acc = (h', out) ->
      exists kept, out = acc ++ kept /\ length kept <= length (m :: rest) /\
        (forall r, r ∈ kept -> r ∈ m :: rest) /\
        (forall r, r ∉ m :: rest -> h' r = h r) /\
        (forall r, kept_name (name (h r)) -> kept_name (name (h' r))) /\
        (forall r, r ∈ kept -> kept_name (name (h' r))) /\
        (NoDup (m :: rest) -> forall r, r ∈ kept ->
           Pathlib.is_absolute (Pathlib.Path (name (h r))) = false /\
           Pathlib.parts (Pathlib.Path (name (h' r)))
           = tail (Pathlib.parts (Pathlib.Path (name (h r)))))).
    { intros Hrest. destruct (IH _ _ _ _ Hrest) as (kept & -> & Hlen & Hin & Hout & Hpres & Hkept & Hnd).
      exists kept. split_and!; try done.
      - simpl. lia.
      - intros r Hr. right. by apply Hin.
      - intros r Hr. apply Hout. intros Hin'. apply Hr. by right.
      - intros Hd r Hr. apply NoDup_cons in Hd as [_ Hd]. by apply Hnd. }
    destruct (Pathlib.is_absolute (Pathlib.Path (name (h m)))) eqn:Habs; [by apply Hskip|].
    destruct (tail (Pathlib.parts (Pathlib.Path (name (h m))))) as [|p0 ps] eqn:Htl;
      [by apply Hskip|].
    destruct (String.eqb p0 "test") eqn:Htest; [by apply Hskip|].
    clear Hskip.
    pose proof (stripped_name_kept _ _ _ Habs Htl Htest) as Hnew.
    pose proof (stripped_name _ _ _ Habs Htl) as Hparse.
    set (new := Pathlib.str (Pathlib.Path_of (p0 :: ps))) in *.
    destruct (IH _ _ _ _ Hrun) as (kept & -> & Hlen & Hin & Hout & Hpres & Hkept & Hnd).
    exists (m :: kept). split_and!.
    + by rewrite <- app_assoc.
    + simpl. lia.
    + intros r Hr. apply elem_of_cons in Hr as [->|Hr]; [by left|right; by apply Hin].
    + intros r Hr. apply not_elem_of_cons in Hr as [Hne Hr].
      rewrite (Hout r Hr). by apply set_name_other.
    + intros r Hr. apply Hpres. by apply set_name_kept.
    + intros r Hr. apply elem_of_cons in Hr as [->|Hr]; [|by apply Hkept].
      apply Hpres. by rewrite set_name_same.
    + intros Hd r Hr. apply NoDup_cons in Hd as [Hm Hd].
      apply elem_of_cons in Hr as [->|Hr].
      * split; [done|]. rewrite (Hout m Hm), set_name_same, Hparse.
        rewrite Htl. done.
      * destruct (Hnd Hd r Hr) as [Ha Hp].
        assert (r <> m) as Hne by (intros ->; by apply Hm, Hin).
        rewrite set_name_other in Ha, Hp by done. done.
Qed.

(** Read on an arbitrary store: the list may name an object twice, and
    then it is stripped at each visit that keeps it; the path facts hold
    all the same, the relation to the original path needs the members to
    be distinct. *)
Lemma clean_revealjs_tar_members_store (h : Store) (members : list ref) :
  let '(h', clean) := clean_revealjs_tar_members h members in
  length clean <= length members /\
  (forall r, r ∈ clean -> r ∈ members /\ kept_name (name (h' r))) /\
  (NoDup members ->
   forall r, r ∈ clean ->
     Pathlib.is_absolute (Pathlib.Path (name (h r))) = false /\
     Pathlib.parts (Pathlib.Path (name (h' r)))
     = tail (Pathlib.parts (Pathlib.Path (name (h r))))).
Proof.
  unfold clean_revealjs_tar_members.
  destruct (clean_loop members h []) as [h' clean] eqn:Hrun.
  destruct (clean_loop_spec _ _ _ _ _ Hrun) as (kept & -> & Hlen & Hin & _ & _ & Hkept & Hnd).
  simpl. split_and!; [done| |done].
  intros r Hr. split; [by apply Hin|]. by apply Hkept.
Qed.

(** C3.  For every list of archive members, handed over as
    [tar.getmembers()] hands them over, one object per entry: the cleaned
    list is no longer than the input, and every member in it had a
    relative path and now has a relative path that is not empty, does not
    start with [test], and is the original path without its top-level
    component. *)
Theorem clean_revealjs_tar_members_invariant (infos : list TarInfo) :
  let h := getmembers_store infos in
  let '(h', clean) := clean_revealjs_tar_members h (getmembers infos) in
  length clean <= length infos /\
  forall r, r ∈ clean ->
    r < length infos /\
    Pathlib.is_absolute (Pathlib.Path (name (h r))) = false /\
    Pathlib.is_absolute (Pathlib.Path (name (h' r))) = false /\
    Pathlib.parts (Pathlib.Path (name (h' r))) <> [] /\
    head (Pathlib.parts (Pathlib.Path (name (h' r)))) <> Some "test" /\
    Pathlib.parts (Pathlib.Path (name (h' r)))
    = tail (Pathlib.parts (Pathlib.Path (name (h r)))).
Proof.
  intros h.
  pose proof (clean_revealjs_tar_members_store h (getmembers infos)) as Hstore.
  destruct (clean_revealjs_tar_members h (getmembers infos)) as [h' clean].
  destruct Hstore as (Hlen & Hkept & Hstrip).
  unfold getmembers in *. rewrite length_seq in Hlen. split; [done|].
  intros r Hr.
  destruct (Hkept r Hr) as (Hin & Hrel & Hne & Htest).
  destruct (Hstrip (NoDup_seq 0 (length infos)) r Hr) as (Hold & Htail).
  apply elem_of_seq in Hin. split_and!; try done. lia.
Qed.

(** A member named twice in the list is stripped twice. *)
Lemma clean_twice_when_aliased :
  let h : Store := fun _ => mkTarInfo "reveal.js/css/print/pdf.css" false "" in
  let '(h', clean) := clean_revealjs_tar_members h [0; 0] in
  clean = [0; 0] /\ name (h' 0) = "print/pdf.css".
Proof. by vm_compute. Qed.

(** ** [find_indexes] *)

Lemma find_indexes_from_none (regex : string) (haystack : list string) (i : nat) :
  Forall (fun line => ~ matches regex line) haystack ->
  find_indexes_from i haystack regex = [].
Proof.
  intros Hall. revert i. induction Hall as [|x l Hx _ IH]; intros i; simpl; [done|].
  unfold matches in Hx. destruct (Re.search regex x); [done|]. apply IH.
Qed.

(** The first index reported is the first matching item. *)
Lemma find_indexes_from_first (regex : string) (haystack : list string) :
  forall (i k : nat) (line : string),
    haystack !! k = Some line ->
    matches regex line ->
    (forall j l, j < k -> haystack !! j = Some l -> ~ matches regex l) ->
    exists rest, find_indexes_from i haystack regex = (i + k) :: rest.
Proof.
  induction haystack as [|x l IH]; intros i k line Hk Hm Hbefore; [done|].
  destruct k as [|k]; simpl in *.
  - injection Hk as ->. unfold matches in Hm. rewrite Hm.
    rewrite Nat.add_0_r. by eexists.
  - assert (Re.search regex x = false) as ->.
    { specialize (Hbefore 0 x). unfold matches in Hbefore.
      destruct (Re.search regex x); [|done]. exfalso. apply Hbefore; [lia|done..]. }
    destruct (IH (S i) k line Hk Hm) as [rest Hrest].
    { intros j l' Hj Hl'. apply (Hbefore (S j) l'); [lia|done]. }
    exists rest. rewrite Hrest. f_equal. lia.
Qed.

(** Every index reported is the position of a matching item. *)
Lemma find_indexes_from_sound (regex : string) (haystack : list string) :
  forall (i n : nat),
    n ∈ find_indexes_from i haystack regex ->
    exists k line, n = i + k /\ haystack !! k = Some line /\ matches regex line.
Proof.
  induction haystack as [|x l IH]; intros i n Hn; simpl in Hn; [by apply elem_of_nil in Hn|].
  destruct (Re.search regex x) eqn:Hx.
  - apply elem_of_cons in Hn as [->|Hn].
    + exists 0, x. by rewrite Nat.add_0_r.
    + destruct (IH _ _ Hn) as (k & line & -> & Hk & Hm).
      exists (S k), line. split_and!; [lia|done..].
  - destruct (IH _ _ Hn) as (k & line & -> & Hk & Hm).
    exists (S k), line. split_and!; [lia|done..].
Qed.

(** One index per matching item. *)
Lemma find_indexes_from_length (regex : string) (haystack : list string) (i : nat) :
  length (find_indexes_from i haystack regex)
  = length (List.filter (Re.search regex) haystack).
Proof.
  revert i. induction haystack as [|x l IH]; intros i; simpl; [done|].
  destruct (Re.search regex x); simpl; by rewrite IH.
Qed.

(** ** Python lists *)

Lemma py_insert_length {A} (l : list A) (i : nat) (x : A) :
  length (PyList.insert l i x) = S (length l).
Proof.
  unfold PyList.insert. rewrite length_app, length_take. simpl.
  rewrite length_drop. lia.
Qed.

Lemma insert_after_each_length (indexes : list nat) (text : string) (html : list string) :
  length (insert_after_each indexes text html) = length html + length indexes.
Proof.
  unfold insert_after_each. revert html.
  induction indexes as [|i rest IH]; intros html; simpl; [lia|].
  rewrite IH, py_insert_length. lia.
Qed.

(** The indexes come out in increasing order and within the list. *)
Lemma find_indexes_from_bounds (regex : string) (haystack : list string) :
  forall (i n : nat),
    n ∈ find_indexes_from i haystack regex -> i <= n < i + length haystack.
Proof.
  intros i n Hn. destruct (find_indexes_from_sound _ _ _ _ Hn) as (k & line & -> & Hk & _).
  apply lookup_lt_Some in Hk. lia.
Qed.

Lemma find_indexes_from_increasing (regex : string) (haystack : list string) :
  forall (i a b : nat) (rest : list nat),
    find_indexes_from i haystack regex = a :: b :: rest ->
    i <= a /\ a < b /\ b < i + length haystack.
Proof.
  induction haystack as [|x l IH]; intros i a b rest H; simpl in H; [done|].
  destruct (Re.search regex x).
  - injection H as <- H.
    assert (b ∈ find_indexes_from (S i) l regex) as Hb by (rewrite H; by left).
    apply find_indexes_from_bounds in Hb. simpl. lia.
  - destruct (IH _ _ _ _ H) as (? & ? & ?). simpl. lia.
Qed.

Lemma insert_lookup_at {A} (l : list A) (i : nat) (x : A) :
  i <= length l -> PyList.insert l i x !! i = Some x.
Proof.
  intros Hi. unfold PyList.insert.
  rewrite lookup_app_r by (rewrite length_take; lia).
  rewrite length_take. by replace (i - i `min` length l) with 0 by lia.
Qed.

Lemma insert_lookup_before {A} (l : list A) (i k : nat) (x : A) :
  k < i -> i <= length l -> PyList.insert l i x !! k = l !! k.
Proof.
  intros Hk Hi. unfold PyList.insert.
  rewrite lookup_app_l by (rewrite length_take; lia). by rewrite lookup_take_lt.
Qed.

Lemma insert_lookup_after {A} (l : list A) (i k : nat) (x : A) :
  i <= k -> i <= length l -> PyList.insert l i x !! S k = l !! k.
Proof.
  intros Hk Hi. unfold PyList.insert.
  rewrite lookup_app_r by (rewrite length_take; lia).
  rewrite length_take. replace (S k - i `min` length l) with (S (k - i)) by lia.
  simpl. rewrite lookup_drop. f_equal. lia.
Qed.

(** ** [tweak_html] *)

Lemma getitem_Some (config : Config) (key : string) (v : pyval) :
  items config !! key = Some v -> getitem config key = Ok v.
Proof. unfold getitem. by intros ->. Qed.

Lemma path_guard_str (env : Env) (w : World) (config : Config) (key s : string) :
  items config !! key = Some (PyStr s) ->
  path_guard env w config key = Ok (path_exists env w (Pathlib.Path s), PyStr s).
Proof. intros H. unfold path_guard. by rewrite (getitem_Some _ _ _ H). Qed.

Section Steps.

Context (env : Env) (w : World) (config : Config) (html : list string).

Lemma tweak_custom_css_off : string_off config "custom_css" -> tweak_custom_css config html = Ok html.
Proof. intros (v & Hv & Hf). unfold tweak_custom_css. rewrite (getitem_Some _ _ _ Hv). simpl. by rewrite Hf. Qed.

Lemma tweak_footer_off : string_off config "footer" -> tweak_footer config html = Ok html.
Proof. intros (v & Hv & Hf). unfold tweak_footer. rewrite (getitem_Some _ _ _ Hv). simpl. by rewrite Hf. Qed.

Lemma tweak_header_off : string_off config "header" -> tweak_header config html = Ok html.
Proof. intros (v & Hv & Hf). unfold tweak_header. rewrite (getitem_Some _ _ _ Hv). simpl. by rewrite Hf. Qed.

Lemma tweak_warmup_guard (s : string) :
  items config !! "warmup" = Some (PyStr s) ->
  tweak_warmup env w config html =
    if path_exists env w (Pathlib.Path s)
    then rbind (PyList.item0 (find_indexes html slides_marker))
               (fun index => Ok (PyList.insert html (index + 1) (warmup_line (PyStr s))))
    else Ok html.
Proof. intros H. unfold tweak_warmup. rewrite (path_guard_str _ _ _ _ _ H). done. Qed.

Lemma tweak_logo_guard (s : string) :
  items config !! "logo" = Some (PyStr s) ->
  tweak_logo env w config html =
    if path_exists env w (Pathlib.Path s)
    then Ok (insert_after_each (find_indexes html reveal_marker) (logo_line (PyStr s)) html)
    else Ok html.
Proof. intros H. unfold tweak_logo. rewrite (path_guard_str _ _ _ _ _ H). done. Qed.

Lemma tweak_background_guard (s : string) :
  items config !! "background" = Some (PyStr s) ->
  tweak_background env w config html =
    if path_exists env w (Pathlib.Path s)
    then Ok (replace_at_each (find_indexes html section_marker)
                             section_marker (background_tag (PyStr s)) html)
    else Ok html.
Proof. intros H. unfold tweak_background. rewrite (path_guard_str _ _ _ _ _ H). done. Qed.

Lemma tweak_warmup_off : path_off env w config "warmup" -> tweak_warmup env w config html = Ok html.
Proof. intros (s & Hs & Hf). by rewrite (tweak_warmup_guard s Hs), Hf. Qed.

Lemma tweak_logo_off : path_off env w config "logo" -> tweak_logo env w config html = Ok html.
Proof. intros (s & Hs & Hf). by rewrite (tweak_logo_guard s Hs), Hf. Qed.

Lemma tweak_background_off :
  path_off env w config "background" -> tweak_background env w config html = Ok html.
Proof. intros (s & Hs & Hf). by rewrite (tweak_background_guard s Hs), Hf. Qed.

End Steps.

(** *** [splitlines] and [join] *)

Lemma splitlines_nil (s : string) : Str.splitlines s = [] -> s = "".
Proof.
  destruct s as [|c s]; [done|]. simpl.
  destruct (Ascii.eqb c Str.CR).
  - destruct s as [|c' s]; [done|]. by destruct (Ascii.eqb c' Str.LF).
  - destruct (Str.is_linebreak c); [done|]. by destruct (Str.splitlines s).
Qed.

Lemma join_cons_char (sep : string) (c : ascii) (line : string) (lines : list string) :
  Str.join sep (String c line :: lines) = String c (Str.join sep (line :: lines)).
Proof. by destruct lines. Qed.

Lemma join_splitlines (s : string) :
  plain s = true -> Str.join Str.nl (Str.splitlines s) = s.
Proof.
  induction s as [|c s IH]; [done|]. intros Hp. simpl in Hp. simpl Str.splitlines.
  destruct (Ascii.eqb c Str.CR) eqn:Hcr.
  { apply Ascii.eqb_eq in Hcr as ->. by vm_compute in Hp. }
  destruct (Str.is_linebreak c) eqn:Hlb.
  - apply andb_true_iff in Hp as [Hp Hrest]. apply andb_true_iff in Hp as [Hlf Hne].
    apply Ascii.eqb_eq in Hlf as ->.
    destruct (Str.splitlines s) as [|line lines] eqn:Hsplit.
    + apply splitlines_nil in Hsplit as ->. done.
    + change (Str.join Str.nl ("" :: line :: lines))
        with (String Str.LF (Str.join Str.nl (line :: lines))).
      by rewrite (IH Hrest).
  - destruct (Str.splitlines s) as [|line lines] eqn:Hsplit.
    + apply splitlines_nil in Hsplit as ->. done.
    + rewrite join_cons_char. by rewrite (IH Hp).
Qed.

(** C4, as the code has it.  With the three text decorations present
    and falsy and the three path decorations naming nothing on disk,
    [tweak_html] returns the lines of the input joined by newlines; that
    is the input itself when the newline is its only line boundary and
    it does not end with one. *)
Theorem tweak_html_decorations_off (env : Env) (w : World) (html : string) (config : Config) :
  string_off config "custom_css" ->
  path_off env w config "warmup" ->
  string_off config "footer" ->
  string_off config "header" ->
  path_off env w config "logo" ->
  path_off env w config "background" ->
  tweak_html env w html config = Ok (Str.join Str.nl (Str.splitlines html)) /\
  (plain html = true -> tweak_html env w html config = Ok html).
Proof.
  intros Hcss Hwarm Hfoot Hhead Hlogo Hback.
  assert (tweak_html env w html config = Ok (Str.join Str.nl (Str.splitlines html))) as Heq.
  { unfold tweak_html.
    rewrite tweak_custom_css_off by done. simpl.
    rewrite tweak_warmup_off by done. simpl.
    rewrite tweak_footer_off by done. simpl.
    rewrite tweak_header_off by done. simpl.
    rewrite tweak_logo_off by done. simpl.
    rewrite tweak_background_off by done. done. }
  split; [done|]. intros Hp. by rewrite Heq, join_splitlines.
Qed.

Lemma sample_off_string (key : string) :
  key ∈ ["custom_css"; "footer"; "header"] ->
  string_off (Sample.config "3.4.1" Sample.off) key.
Proof.
  intros Hk. exists (PyStr "").
  repeat (apply elem_of_cons in Hk as [->|Hk]; [by vm_compute|]).
  by apply elem_of_nil in Hk.
Qed.

Lemma sample_off_path (key : string) :
  key ∈ ["warmup"; "logo"; "background"] ->
  path_off Sample.plain_env Sample.start (Sample.config "3.4.1" Sample.off) key.
Proof.
  intros Hk.
  apply elem_of_cons in Hk as [->|Hk]; [exists "warmup.svg"; by vm_compute|].
  apply elem_of_cons in Hk as [->|Hk]; [exists "logo.svg"; by vm_compute|].
  apply elem_of_cons in Hk as [->|Hk]; [exists "background.svg"; by vm_compute|].
  by apply elem_of_nil in Hk.
Qed.

Lemma tweak_html_decorations_off_witness :
  tweak_html Sample.plain_env Sample.start Sample.two_reveal
             (Sample.config "3.4.1" Sample.off)
  = Ok Sample.two_reveal.
Proof.
  apply (tweak_html_decorations_off Sample.plain_env Sample.start Sample.two_reveal
           (Sample.config "3.4.1" Sample.off)).
  - apply sample_off_string. set_solver.
  - apply sample_off_path. set_solver.
  - apply sample_off_string. set_solver.
  - apply sample_off_string. set_solver.
  - apply sample_off_path. set_solver.
  - apply sample_off_path. set_solver.
  - vm_compute. reflexivity.
Defined.

(** C4, as stated, fails: with every decoration entry the empty string
    the warm-up block runs, because the empty path is the working
    directory, and a page without the slides marker makes it raise. *)
Lemma tweak_html_blank_config_changes :
  ~ (forall (env : Env) (w : World) (html : string) (config : Config),
        Forall (empty_or_missing config) decoration_keys ->
        tweak_html env w html config = Ok html).
Proof.
  intros H.
  specialize (H Sample.plain_env Sample.start "<p>a</p>" (Sample.config "3.4.1" Sample.blank)).
  assert (tweak_html Sample.plain_env Sample.start "<p>a</p>"
                     (Sample.config "3.4.1" Sample.blank) = Raise IndexError) as Hrun
    by (by vm_compute).
  rewrite Hrun in H. discriminate H.
  repeat constructor; right; right; by vm_compute.
Qed.

(** Even with every decoration off a final newline is dropped. *)
Lemma tweak_html_drops_final_newline :
  tweak_html Sample.plain_env Sample.start ("<p>a</p>" +:+ Str.nl)
             (Sample.config "3.4.1" Sample.off)
  = Ok "<p>a</p>".
Proof. by vm_compute. Qed.

(** C6.  With a truthy [custom_css]: when no line matches the stylesheet
    marker the call raises [IndexError]; when line [i] is the first that
    matches, the stylesheet block puts the link line right after it, and
    the other blocks run on that list. *)
Theorem custom_css_needs_marker
        (env : Env) (w : World) (html : string) (config : Config) (v : pyval) :
  items config !! "custom_css" = Some v ->
  truthy v = true ->
  let lines := Str.splitlines html in
  (Forall (fun line => ~ matches stylesheet_marker line) lines ->
   tweak_html env w html config = Raise IndexError) /\
  (forall (i : nat) (line : string),
      lines !! i = Some line ->
      matches stylesheet_marker line ->
      (forall j l, j < i -> lines !! j = Some l -> ~ matches stylesheet_marker l) ->
      let linked := take (S i) lines ++ link_line v :: drop (S i) lines in
      tweak_custom_css config lines = Ok linked /\
      linked !! i = Some line /\
      linked !! (S i) = Some (link_line v) /\
      tweak_html env w html config =
        rbind (tweak_warmup env w config linked) (fun html =>
        rbind (tweak_footer config html) (fun html =>
        rbind (tweak_header config html) (fun html =>
        rbind (tweak_logo env w config html) (fun html =>
        rbind (tweak_background env w config html) (fun html =>
        Ok (Str.join Str.nl html))))))).
Proof.
  intros Hv Ht lines. split.
  - intros Hnone. unfold tweak_html, tweak_custom_css. fold lines.
    rewrite (getitem_Some _ _ _ Hv). simpl. rewrite Ht.
    unfold find_indexes. by rewrite find_indexes_from_none.
  - intros i line Hi Hm Hfirst linked.
    assert (tweak_custom_css config lines = Ok linked) as Hstep.
    { unfold tweak_custom_css. rewrite (getitem_Some _ _ _ Hv). simpl. rewrite Ht.
      destruct (find_indexes_from_first stylesheet_marker lines 0 i line Hi Hm Hfirst)
        as [rest Hrest].
      unfold find_indexes. rewrite Hrest. simpl.
      unfold PyList.insert, linked. by rewrite Nat.add_1_r. }
    pose proof (lookup_lt_Some _ _ _ Hi) as Hlt.
    split_and!.
    + done.
    + unfold linked. rewrite lookup_app_l by (rewrite length_take; lia).
      rewrite lookup_take_lt by lia. done.
    + unfold linked. rewrite lookup_app_r by (rewrite length_take; lia).
      rewrite length_take. by replace (S i - S i `min` length lines) with 0 by lia.
    + unfold tweak_html. fold lines. by rewrite Hstep.
Qed.

Lemma custom_css_needs_marker_witness :
  tweak_html Sample.plain_env Sample.start "<p>a</p>"
             (Sample.config "3.4.1" Sample.css_only)
  = Raise IndexError
  /\ tweak_custom_css (Sample.config "3.4.1" Sample.css_only)
                      (Str.splitlines Sample.themed)
     = Ok (take 2 (Str.splitlines Sample.themed)
             ++ link_line (PyStr "custom.css") :: drop 2 (Str.splitlines Sample.themed)).
Proof.
  pose proof (custom_css_needs_marker Sample.plain_env Sample.start "<p>a</p>"
                (Sample.config "3.4.1" Sample.css_only) (PyStr "custom.css")
                ltac:(by vm_compute) ltac:(by vm_compute)) as [Hnone _].
  pose proof (custom_css_needs_marker Sample.plain_env Sample.start Sample.themed
                (Sample.config "3.4.1" Sample.css_only) (PyStr "custom.css")
                ltac:(by vm_compute) ltac:(by vm_compute)) as [_ Hfirst].
  split.
  - apply Hnone. repeat constructor. by vm_compute.
  - refine (proj1 (Hfirst 1 _ _ _ _)).
    + by vm_compute.
    + by vm_compute.
    + intros j l Hj Hl. assert (j = 0) as -> by lia.
      vm_compute in Hl. injection Hl as <-. by vm_compute.
Defined.

(** C10.  The empty path exists whatever is on disk, and each of the
    warm-up, logo and background blocks runs when the path its entry
    names exists and leaves the lines alone when it does not; the
    stylesheet, footer and header blocks leave the lines alone for the
    empty string. *)
Theorem path_guarded_decorations (env : Env) (w : World) (config : Config) (html : list string) :
  path_exists env w (Pathlib.Path "") = true /\
  (forall s, items config !! "warmup" = Some (PyStr s) ->
     tweak_warmup env w config html =
       if path_exists env w (Pathlib.Path s)
       then rbind (PyList.item0 (find_indexes html slides_marker))
                  (fun index => Ok (PyList.insert html (index + 1) (warmup_line (PyStr s))))
       else Ok html) /\
  (forall s, items config !! "logo" = Some (PyStr s) ->
     tweak_logo env w config html =
       if path_exists env w (Pathlib.Path s)
       then Ok (insert_after_each (find_indexes html reveal_marker) (logo_line (PyStr s)) html)
       else Ok html) /\
  (forall s, items config !! "background" = Some (PyStr s) ->
     tweak_background env w config html =
       if path_exists env w (Pathlib.Path s)
       then Ok (replace_at_each (find_indexes html section_marker)
                                section_marker (background_tag (PyStr s)) html)
       else Ok html) /\
  (items config !! "warmup" = Some (PyStr "") ->
     tweak_warmup env w config html <> Ok html) /\
  (items config !! "logo" = Some (PyStr "") ->
     exists html', tweak_logo env w config html = Ok html' /\
       length html' = length html + length (List.filter (Re.search reveal_marker) html)) /\
  (items config !! "custom_css" = Some (PyStr "") -> tweak_custom_css config html = Ok html) /\
  (items config !! "footer" = Some (PyStr "") -> tweak_footer config html = Ok html) /\
  (items config !! "header" = Some (PyStr "") -> tweak_header config html = Ok html).
Proof.
  assert (path_exists env w (Pathlib.Path "") = true) as Hdot by done.
  split_and!.
  - done.
  - apply tweak_warmup_guard.
  - apply tweak_logo_guard.
  - apply tweak_background_guard.
  - intros H. rewrite (tweak_warmup_guard env w config html "" H), Hdot.
    destruct (find_indexes html slides_marker) as [|i rest]; simpl; [done|].
    intros [= Heq]. apply (f_equal length) in Heq. rewrite py_insert_length in Heq. lia.
  - intros H. rewrite (tweak_logo_guard env w config html "" H), Hdot.
    eexists. split; [done|].
    rewrite insert_after_each_length. unfold find_indexes.
    by rewrite find_indexes_from_length.
  - intros H. apply tweak_custom_css_off. by exists (PyStr "").
  - intros H. apply tweak_footer_off. by exists (PyStr "").
  - intros H. apply tweak_header_off. by exists (PyStr "").
Qed.

Lemma path_guarded_decorations_witness :
  tweak_warmup Sample.plain_env Sample.start (Sample.config "3.4.1" Sample.blank)
               (Str.splitlines Sample.two_reveal)
  <> Ok (Str.splitlines Sample.two_reveal)
  /\ tweak_footer (Sample.config "3.4.1" Sample.blank) (Str.splitlines Sample.two_reveal)
     = Ok (Str.splitlines Sample.two_reveal).
Proof.
  pose proof (path_guarded_decorations Sample.plain_env Sample.start
                (Sample.config "3.4.1" Sample.blank) (Str.splitlines Sample.two_reveal))
    as (_ & _ & _ & _ & Hwarm & _ & _ & Hfoot & _).
  split.
  - apply Hwarm. by vm_compute.
  - apply Hfoot. by vm_compute.
Defined.

(** C5, where the code falls short.  With the marker on exactly two
    lines [i] and [j], the footer block inserts two copies: the first is
    the line after the first marker, the second is the line before the
    second marker, which it should follow. *)
Theorem footer_copy_precedes_second_marker
        (config : Config) (v : pyval) (html : list string) (i j : nat) :
  items config !! "footer" = Some v ->
  truthy v = true ->
  find_indexes html reveal_marker = [i; j] ->
  exists html',
    tweak_footer config html = Ok html' /\
    length html' = length html + 2 /\
    html' !! i = html !! i /\
    html' !! S i = Some (footer_line v) /\
    html' !! S j = Some (footer_line v) /\
    html' !! S (S j) = html !! j.
Proof.
  intros Hv Ht Hidx.
  destruct (find_indexes_from_increasing _ _ _ _ _ _ Hidx) as (_ & Hij & Hj).
  simpl in Hj.
  unfold tweak_footer. rewrite (getitem_Some _ _ _ Hv). simpl. rewrite Ht, Hidx.
  eexists. split; [reflexivity|].
  unfold insert_after_each. simpl.
  rewrite !Nat.add_1_r.
  set (text := footer_line v).
  set (h1 := PyList.insert html (S i) text).
  assert (length h1 = S (length html)) as Hlen1 by apply py_insert_length.
  split_and!.
  - rewrite py_insert_length. lia.
  - rewrite insert_lookup_before by lia. unfold h1. by rewrite insert_lookup_before by lia.
  - rewrite insert_lookup_before by lia. unfold h1. by rewrite insert_lookup_at by lia.
  - by rewrite insert_lookup_at by lia.
  - rewrite insert_lookup_after by lia. unfold h1. by rewrite insert_lookup_after by lia.
Qed.

Lemma footer_copy_precedes_second_marker_witness :
  exists html',
    tweak_footer (Sample.config "3.4.1" Sample.footer_only) (Str.splitlines Sample.two_reveal)
    = Ok html' /\
    html' !! 3 = Some (footer_line (PyStr "&copy; me")) /\
    html' !! 4 = Some reveal_marker.
Proof.
  destruct (footer_copy_precedes_second_marker
              (Sample.config "3.4.1" Sample.footer_only) (PyStr "&copy; me")
              (Str.splitlines Sample.two_reveal) 0 2)
    as (html' & Hrun & _ & _ & _ & Hcopy & Hmarker).
  - vm_compute. reflexivity.
  - vm_compute. reflexivity.
  - vm_compute. reflexivity.
  - exists html'. split_and!; [exact Hrun|exact Hcopy|exact Hmarker].
Defined.

(** The whole of [tweak_html] on that page: marker, footer, a line,
    footer, marker, a line. *)
Example footer_with_two_markers :
  tweak_html Sample.plain_env Sample.start Sample.two_reveal
             (Sample.config "3.4.1" Sample.footer_only)
  = Ok (Str.join Str.nl
          [ reveal_marker; footer_line (PyStr "&copy; me"); "<p>a</p>";
            footer_line (PyStr "&copy; me"); reveal_marker; "<p>b</p>" ]).
Proof. by vm_compute. Qed.

(** The loop does insert one copy per index, and with a single marker
    line the copy is the line after it. *)
Lemma insert_after_single (i : nat) (text : string) (html : list string) :
  insert_after_each [i] text html = take (S i) html ++ text :: drop (S i) html.
Proof. unfold insert_after_each, PyList.insert. simpl. by rewrite Nat.add_1_r. Qed.

(** ** The file system *)

Lemma fs_set_eq (f : FS.t) (p : FS.path) (n : option FS.node) : FS.set f p n p = n.
Proof. unfold FS.set. by rewrite decide_True. Qed.

Lemma fs_set_ne (f : FS.t) (p q : FS.path) (n : option FS.node) :
  q <> p -> FS.set f p n q = f q.
Proof. intros H. unfold FS.set. by rewrite decide_False. Qed.

Lemma lstat_nonroot (f : FS.t) (p : FS.path) : p <> [] -> FS.lstat f p = f p.
Proof. by destruct p. Qed.

Lemma resolve_not_link (fuel : nat) (f : FS.t) (p : FS.path) :
  (forall target, FS.lstat f p <> Some (FS.Symlink target)) ->
  FS.resolve fuel f p = Some p.
Proof.
  intros H. destruct fuel; simpl; destruct (FS.lstat f p) as [[| |target]|] eqn:E;
    try done; by destruct (H target).
Qed.

Lemma stat_File (f : FS.t) (p : FS.path) (bytes : string) :
  FS.lstat f p = Some (FS.File bytes) -> FS.stat f p = Some (FS.File bytes).
Proof.
  intros H. unfold FS.stat. rewrite resolve_not_link; [done|].
  intros target. by rewrite H.
Qed.

Lemma make_dirs_Some (f : FS.t) (p q : FS.path) (n : FS.node) :
  f q = Some n -> FS.make_dirs f p q = Some n.
Proof. unfold FS.make_dirs. by intros ->. Qed.

Lemma make_dirs_not_None (f : FS.t) (p q : FS.path) :
  f q <> None -> FS.make_dirs f p q <> None.
Proof.
  destruct (f q) as [n|] eqn:E; [|done]. intros _. by rewrite (make_dirs_Some _ _ _ _ E).
Qed.

(** *** Paths below a directory *)

Lemma truediv_component (p : Pathlib.PurePath) (c : string) :
  component c ->
  p // c = {| Pathlib.root := Pathlib.root p; Pathlib.names := Pathlib.names p ++ [c] |}.
Proof. intros Hc. unfold Pathlib.truediv. by rewrite (Path_component c Hc). Qed.

Lemma here_truediv (env : Env) (p : Pathlib.PurePath) (c : string) :
  component c -> c <> ".." ->
  here env (p // c) = here env p ++ [c].
Proof.
  intros Hc Hdd. rewrite (truediv_component p c Hc). unfold here, FS.abs.
  cbn [Pathlib.names Pathlib.root]. rewrite fold_left_app. simpl.
  unfold FS.norm_step at 1.
  assert (String.eqb c ".." = false) as -> by (by apply String.eqb_neq).
  done.
Qed.

Lemma path_exists_truediv (env : Env) (w : World) (p : Pathlib.PurePath) (c : string) :
  component c ->
  path_exists env w (p // c) =
    match FS.stat (fs w) (here env (p // c)) with
    | Some _ => true
    | None => false
    end.
Proof.
  intros Hc. unfold path_exists. rewrite (truediv_component p c Hc).
  cbn [Pathlib.names Pathlib.root].
  destruct (Pathlib.root p); [|done]. by destruct (Pathlib.names p).
Qed.

Lemma component_revealjs : component "revealjs".
Proof. split; by vm_compute. Qed.

(** ** [initialize_localdir] *)

(** C9, where the code falls short.  When the version directory is
    already on disk and [revealjs] in the output directory is a dangling
    link, its target gone, the call does not replace the link: it raises
    [FileExistsError] and leaves the world as the directory creation left
    it, the stale link included. *)
Theorem dangling_reference_blocks_relink
        (env : Env) (localdir : Pathlib.PurePath) (version : string)
        (w w1 : World) (target : Pathlib.PurePath) :
  Path_mkdir_parents env (localdir // "out") w = (w1, Ok tt) ->
  path_exists env w1 (localdir // version) = true ->
  FS.lstat (fs w1) (here env (localdir // "out" // "revealjs")) = Some (FS.Symlink target) ->
  FS.stat (fs w1) (here env (localdir // "out" // "revealjs")) = None ->
  initialize_localdir env localdir version w = (w1, Raise FileExistsError).
Proof.
  intros Hmk Hver Hlink Hgone.
  unfold initialize_localdir, bind. rewrite Hmk.
  unfold Path_exists at 1. rewrite Hver. cbn [negb]. unfold ret at 1.
  unfold Path_exists. rewrite (path_exists_truediv _ _ _ _ component_revealjs), Hgone.
  unfold ret at 1. unfold Path_symlink_to. by rewrite Hlink.
Qed.

Lemma dangling_reference_blocks_relink_witness :
  initialize_localdir (Sample.env (Sample.config "3.4.1" Sample.off) None (Ok ""))
                      Sample.localdir "3.4.1" Sample2.switched
  = (set_fs Sample2.switched
            (FS.make_dirs (fs Sample2.switched) ["home"; "u"; ".markdownreveal"; "out"]),
     Raise FileExistsError).
Proof.
  apply (dangling_reference_blocks_relink _ _ _ _ _ (Sample.localdir // "3.3.0")).
  - vm_compute. reflexivity.
  - vm_compute. reflexivity.
  - vm_compute. reflexivity.
  - vm_compute. reflexivity.
Defined.

(** *** Extraction *)

Lemma extract_other (env : Env) (dest : Pathlib.PurePath) (m : TarInfo)
      (f : FS.t) (q : FS.path) (n : FS.node) :
  f q = Some n ->
  q <> here env (dest // name m) ->
  extract env dest m f q = Some n.
Proof.
  intros Hq Hne. unfold extract. rewrite fs_set_ne by done. by apply make_dirs_Some.
Qed.

Lemma extract_not_None (env : Env) (dest : Pathlib.PurePath) (m : TarInfo)
      (f : FS.t) (q : FS.path) :
  f q <> None -> extract env dest m f q <> None.
Proof.
  intros Hq. unfold extract.
  destruct (decide (q = here env (dest // name m))) as [->|Hne].
  - rewrite fs_set_eq. by destruct (isdir m).
  - rewrite fs_set_ne by done. by apply make_dirs_not_None.
Qed.

Lemma extract_target (env : Env) (dest : Pathlib.PurePath) (m : TarInfo) (f : FS.t) :
  extract env dest m f (here env (dest // name m)) <> None.
Proof. unfold extract. rewrite fs_set_eq. by destruct (isdir m). Qed.

Section ExtractAll.

Context (env : Env) (dest : Pathlib.PurePath) (h : Store).

Lemma put_other (members : list ref) (f : FS.t) (q : FS.path) (n : FS.node) :
  f q = Some n ->
  q ∉ map (fun r => here env (dest // name (h r))) members ->
  extract_members env dest h members f q = Some n.
Proof.
  unfold extract_members. revert f. induction members as [|r rest IH]; intros f Hq Hnot; [done|].
  simpl in *. apply not_elem_of_cons in Hnot as [Hne Hnot].
  apply IH; [|done]. by apply extract_other.
Qed.

Lemma put_not_None (members : list ref) (f : FS.t) (q : FS.path) :
  f q <> None -> extract_members env dest h members f q <> None.
Proof.
  unfold extract_members. revert f. induction members as [|r rest IH]; intros f Hq; [done|].
  simpl. apply IH. by apply extract_not_None.
Qed.

Lemma put_targets (members : list ref) (f : FS.t) (r : ref) :
  r ∈ members -> extract_members env dest h members f (here env (dest // name (h r))) <> None.
Proof.
  revert f. induction members as [|r' rest IH]; intros f Hr; [by apply elem_of_nil in Hr|].
  unfold extract_members in *. simpl. apply elem_of_cons in Hr as [->|Hr].
  - apply put_not_None, extract_target.
  - by apply IH.
Qed.

End ExtractAll.

Lemma not_elem_of_take {A} (l : list A) (n : nat) (x : A) : x ∉ l -> x ∉ take n l.
Proof.
  intros Hx Hin. apply Hx. apply elem_of_take in Hin as (i & Hi & _).
  by eapply list_elem_of_lookup_2.
Qed.

(** *** Running the primitives *)

Lemma urlretrieve_ok (env : Env) (url bytes : string) (w : World) :
  download env url = Ok bytes ->
  urlretrieve env url w =
    ({| fs := FS.set (fs w) (here env (Pathlib.Path (tmpname env))) (Some (FS.File bytes));
        requests := requests w ++ [url] |},
     Ok (tmpname env)).
Proof. intros H. unfold urlretrieve, bind, http_get. by rewrite H. Qed.

Lemma tarfile_open_file (env : Env) (name bytes : string) (w : World) :
  FS.lstat (fs w) (here env (Pathlib.Path name)) = Some (FS.File bytes) ->
  tarfile_open env name w = (w, untar env bytes).
Proof. intros H. unfold tarfile_open. by rewrite (stat_File _ _ _ H). Qed.

Lemma os_remove_file (env : Env) (name bytes : string) (w : World) :
  FS.lstat (fs w) (here env (Pathlib.Path name)) = Some (FS.File bytes) ->
  os_remove env name w =
    (set_fs w (FS.set (fs w) (here env (Pathlib.Path name)) None), Ok tt).
Proof. intros H. unfold os_remove, Path_unlink. by rewrite H. Qed.

(** The part of [fetch_revealjs] after the version has been resolved to
    [tag] and the archive has arrived: what happens to the temporary
    file. *)
Lemma fetch_revealjs_tmp (env : Env) (reveal_path : Pathlib.PurePath)
      (version tag bytes : string) (infos : list TarInfo) (w w2 : World) :
  (if String.eqb version "latest" then latest_revealjs_release env else ret version) w
  = (w2, Ok tag) ->
  download env (archive_url tag) = Ok bytes ->
  untar env bytes = Ok infos ->
  let tmp := here env (Pathlib.Path (tmpname env)) in
  tmp <> [] ->
  tmp ∉ extraction_targets env reveal_path infos ->
  exists w',
    fs w' tmp = match extract_fault env with
                | Some _ => Some (FS.File bytes)
                | None => None
                end /\
    fetch_revealjs env reveal_path version w =
      (w', match extract_fault env with
           | Some _ => Raise ExtractError
           | None => Ok tt
           end).
Proof.
  intros Hres Hdl Htar tmp Htmp Hfree.
  unfold fetch_revealjs, bind. rewrite Hres.
  rewrite (urlretrieve_ok _ _ _ _ Hdl). fold tmp.
  set (w3 := {| fs := FS.set (fs w2) tmp (Some (FS.File bytes));
                requests := requests w2 ++ [archive_url tag] |}).
  assert (FS.lstat (fs w3) tmp = Some (FS.File bytes)) as Hfile.
  { rewrite lstat_nonroot by done. apply fs_set_eq. }
  rewrite (tarfile_open_file _ _ _ _ Hfile), Htar.
  unfold extraction_targets in Hfree.
  set (members := clean_revealjs_tar_members (getmembers_store infos) (getmembers infos)) in *.
  unfold extractall.
  destruct (extract_fault env) as [n|].
  - eexists. split; [|reflexivity]. cbn [fs set_fs].
    apply put_other.
    + rewrite <- Hfile. by rewrite lstat_nonroot.
    + rewrite <- firstn_map. by apply not_elem_of_take.
  - set (w4 := set_fs w3 _).
    assert (FS.lstat (fs w4) tmp = Some (FS.File bytes)) as Hstill.
    { rewrite lstat_nonroot by done. unfold w4. cbn [fs set_fs].
      apply put_other; [|done]. rewrite <- Hfile. by rewrite lstat_nonroot. }
    rewrite (os_remove_file _ _ _ _ Hstill).
    eexists. split; [|reflexivity]. cbn [fs set_fs]. apply fs_set_eq.
Qed.

(** C8, as the code has it.  Once the archive has been downloaded, the
    temporary file is removed when extraction succeeds; when extraction
    raises, the exception reaches the caller of [initialize_localdir]
    and the temporary file is still there, holding the archive. *)
Theorem archive_removed_after_extraction
        (env : Env) (localdir : Pathlib.PurePath) (version tag bytes : string)
        (infos : list TarInfo) (w w1 w2 : World) :
  Path_mkdir_parents env (localdir // "out") w = (w1, Ok tt) ->
  path_exists env w1 (localdir // version) = false ->
  (if String.eqb version "latest" then latest_revealjs_release env else ret version) w1
  = (w2, Ok tag) ->
  download env (archive_url tag) = Ok bytes ->
  untar env bytes = Ok infos ->
  let tmp := here env (Pathlib.Path (tmpname env)) in
  tmp <> [] ->
  tmp ∉ extraction_targets env (localdir // version) infos ->
  (extract_fault env = None ->
   exists w3, fetch_revealjs env (localdir // version) version w1 = (w3, Ok tt) /\
              fs w3 tmp = None) /\
  (extract_fault env <> None ->
   exists w', initialize_localdir env localdir version w = (w', Raise ExtractError) /\
              fs w' tmp = Some (FS.File bytes)).
Proof.
  intros Hmk Hver Hres Hdl Htar tmp Htmp Hfree.
  destruct (fetch_revealjs_tmp env (localdir // version) version tag bytes infos w1 w2
              Hres Hdl Htar Htmp Hfree) as (w' & Hfs & Hrun).
  fold tmp in Hfs. split.
  - intros Hfault. rewrite Hfault in Hfs, Hrun. by exists w'.
  - intros Hfault. destruct (extract_fault env) as [n|]; [|done].
    exists w'. split; [|done].
    unfold initialize_localdir, bind. rewrite Hmk.
    unfold Path_exists at 1. rewrite Hver. cbn [negb]. by rewrite Hrun.
Qed.

Lemma archive_removed_after_extraction_witness :
  exists w',
    initialize_localdir (Sample.env (Sample.config "3.4.1" Sample.off) (Some 1) (Ok ""))
                        Sample.localdir "3.4.1" Sample.start
    = (w', Raise ExtractError) /\
    fs w' ["tmp"; "tmpk3x9"] = Some (FS.File "archive bytes").
Proof.
  refine (proj2 (archive_removed_after_extraction
                   (Sample.env (Sample.config "3.4.1" Sample.off) (Some 1) (Ok ""))
                   Sample.localdir "3.4.1" "3.4.1" "archive bytes" Sample.tar
                   Sample.start _ _ _ _ _ _ _ _ _) _).
  - vm_compute. reflexivity.
  - vm_compute. reflexivity.
  - vm_compute. reflexivity.
  - vm_compute. reflexivity.
  - vm_compute. reflexivity.
  - vm_compute. discriminate.
  - apply (bool_decide_unpack _). vm_compute. exact I.
  - vm_compute. discriminate.
Defined.

(** C8, as stated, fails: extraction raises after the first member, the
    exception reaches the caller, and the downloaded archive is still in
    the temporary file. *)
Lemma archive_left_behind_when_extraction_raises :
  let env := Sample.env (Sample.config "3.4.1" Sample.off) (Some 1) (Ok "") in
  let after := initialize_localdir env Sample.localdir "3.4.1" Sample.start in
  requests (fst after) = [archive_url "3.4.1"] /\
  snd after = Raise ExtractError /\
  FS.lstat (fs (fst after)) (here env (Pathlib.Path (tmpname env)))
  = Some (FS.File "archive bytes").
Proof. vm_compute. done. Qed.

(** *** Reading a successful run backwards *)

Lemma bind_Ok {A B} (m : IO A) (k : A -> IO B) (w w' : World) (b : B) :
  bind m k w = (w', Ok b) ->
  exists a w1, m w = (w1, Ok a) /\ k a w1 = (w', Ok b).
Proof.
  unfold bind. destruct (m w) as [w1 [a|e]]; [|done]. intros H. by exists a, w1.
Qed.

Lemma mkdir_Ok (env : Env) (p : Pathlib.PurePath) (w w1 : World) (u : unit) :
  Path_mkdir_parents env p w = (w1, Ok u) ->
  w1 = set_fs w (FS.make_dirs (fs w) (here env p)).
Proof.
  unfold Path_mkdir_parents. destruct (forallb _ _); [|done]. by intros [= <-].
Qed.

Lemma unlink_Ok (env : Env) (p : Pathlib.PurePath) (w w1 : World) (u : unit) :
  Path_unlink env p w = (w1, Ok u) ->
  w1 = set_fs w (FS.set (fs w) (here env p) None).
Proof.
  unfold Path_unlink. destruct (FS.lstat _ _) as [[| |]|]; try done; by intros [= <-].
Qed.

Lemma symlink_to_Ok (env : Env) (link target : Pathlib.PurePath) (w w1 : World) (u : unit) :
  Path_symlink_to env link target w = (w1, Ok u) ->
  FS.lstat (fs w) (here env link) = None /\
  w1 = set_fs w (FS.set (fs w) (here env link) (Some (FS.Symlink target))).
Proof.
  unfold Path_symlink_to. destruct (FS.lstat _ _); [done|].
  destruct (FS.is_dir _ _); [|done]. by intros [= <-].
Qed.

Lemma latest_Ok (env : Env) (w w1 : World) (tag : string) :
  latest_revealjs_release env w = (w1, Ok tag) ->
  exists latest rest,
    releases env = Ok (latest :: rest) /\
    latest !! "tag_name" = Some tag /\
    w1 = {| fs := fs w; requests := requests w ++ [releases_url] |}.
Proof.
  unfold latest_revealjs_release, bind, http_get, lift.
  destruct (releases env) as [[|latest rest]|e]; simpl; try done.
  destruct (latest !! "tag_name") as [t|] eqn:Htag; [|done].
  unfold ret. intros [= <- <-]. by exists latest, rest.
Qed.

Lemma urlretrieve_Ok (env : Env) (url name : string) (w w1 : World) :
  urlretrieve env url w = (w1, Ok name) ->
  exists bytes,
    download env url = Ok bytes /\
    name = tmpname env /\
    w1 = {| fs := FS.set (fs w) (here env (Pathlib.Path (tmpname env))) (Some (FS.File bytes));
            requests := requests w ++ [url] |}.
Proof.
  unfold urlretrieve, bind, http_get.
  destruct (download env url) as [bytes|e]; [|done].
  intros [= <- <-]. by exists bytes.
Qed.

Lemma tarfile_open_Ok (env : Env) (name : string) (w w1 : World) (infos : list TarInfo) :
  tarfile_open env name w = (w1, Ok infos) ->
  w1 = w /\
  exists bytes,
    FS.stat (fs w) (here env (Pathlib.Path name)) = Some (FS.File bytes) /\
    untar env bytes = Ok infos.
Proof.
  unfold tarfile_open. destruct (FS.stat _ _) as [[|bytes|]|]; try done.
  intros [= <- Hun]. split; [done|]. by exists bytes.
Qed.

Lemma extractall_Ok (env : Env) (dest : Pathlib.PurePath) (h : Store)
      (members : list ref) (w w1 : World) (u : unit) :
  extractall env dest h members w = (w1, Ok u) ->
  extract_fault env = None /\
  w1 = set_fs w (extract_members env dest h members (fs w)).
Proof.
  unfold extractall. destruct (extract_fault env); [done|]. by intros [= <-].
Qed.

(** What has just been downloaded is what is read back. *)
Lemma stat_downloaded (f : FS.t) (tmp : FS.path) (bytes bytes' : string) :
  FS.stat (FS.set f tmp (Some (FS.File bytes))) tmp = Some (FS.File bytes') ->
  tmp <> [] /\ bytes' = bytes.
Proof.
  intros H. destruct tmp as [|c tmp]; [by vm_compute in H|].
  rewrite (stat_File _ _ bytes) in H.
  - by injection H as <-.
  - rewrite lstat_nonroot by done. apply fs_set_eq.
Qed.

(** The last three statements of [initialize_localdir]: a run that
    succeeds ends with the link in place and touches nothing else. *)
Lemma relink_Ok (env : Env) (link target : Pathlib.PurePath) {A} (out out' : A)
      (w w' : World) :
  bind (Path_exists env link) (fun found =>
    bind (if found then Path_unlink env link else ret tt) (fun _ =>
      bind (Path_symlink_to env link target) (fun _ => ret out))) w
  = (w', Ok out') ->
  fs w' (here env link) = Some (FS.Symlink target) /\
  requests w' = requests w /\
  (forall q, q <> here env link -> fs w' q = fs w q).
Proof.
  intros H.
  apply bind_Ok in H as (found & w1 & Hex & H). injection Hex as <- _.
  apply bind_Ok in H as (u & w2 & Hun & H).
  apply bind_Ok in H as (u' & w3 & Hsym & H). injection H as <- _.
  apply symlink_to_Ok in Hsym as [_ ->].
  assert (requests w2 = requests w /\
          forall q, q <> here env link -> fs w2 q = fs w q) as [Hreq Hfs].
  { destruct found.
    - apply unlink_Ok in Hun as ->. split; [done|].
      intros q Hq. cbn [fs set_fs]. by rewrite fs_set_ne.
    - by injection Hun as <-. }
  cbn [fs set_fs requests]. split_and!.
  - apply fs_set_eq.
  - done.
  - intros q Hq. rewrite fs_set_ne by done. by apply Hfs.
Qed.

(** C7, as the code has it.  For the version [latest] a successful call
    leaves the reference pointing at the directory named [latest]; that
    directory is the one whose existence decides about the download; when
    it is missing, the tag of the first release is asked for and used in
    the archive URL, and the cleaned members are extracted below the
    directory named [latest]. *)
Theorem latest_is_the_directory_name
        (env : Env) (localdir out : Pathlib.PurePath) (w w' : World) :
  initialize_localdir env localdir "latest" w = (w', Ok out) ->
  let w1 := set_fs w (FS.make_dirs (fs w) (here env (localdir // "out"))) in
  fs w' (here env (localdir // "out" // "revealjs"))
  = Some (FS.Symlink (localdir // "latest")) /\
  (path_exists env w1 (localdir // "latest") = true -> requests w' = requests w) /\
  (path_exists env w1 (localdir // "latest") = false ->
   exists latest rest tag bytes infos,
     releases env = Ok (latest :: rest) /\
     latest !! "tag_name" = Some tag /\
     download env (archive_url tag) = Ok bytes /\
     untar env bytes = Ok infos /\
     requests w' = requests w ++ [releases_url; archive_url tag] /\
     forall q, q ∈ extraction_targets env (localdir // "latest") infos ->
               q <> here env (Pathlib.Path (tmpname env)) ->
               fs w' q <> None).
Proof.
  intros H w1. unfold initialize_localdir in H.
  apply bind_Ok in H as (u & w1' & Hmk & H). apply mkdir_Ok in Hmk. subst w1'. fold w1 in H.
  apply bind_Ok in H as (found & w1' & Hex & H). injection Hex as <- <-.
  apply bind_Ok in H as (u' & w2 & Hfetch & H).
  apply relink_Ok in H as (Hlink & Hreq & Hfs).
  split; [done|].
  destruct (path_exists env w1 (localdir // "latest")) eqn:Hfound; cbn [negb] in Hfetch.
  - injection Hfetch as <-. split; [|done]. intros _. by rewrite Hreq.
  - split; [done|]. intros _.
    unfold fetch_revealjs in Hfetch. cbn [String.eqb Ascii.eqb Bool.eqb] in Hfetch.
    apply bind_Ok in Hfetch as (tag & wa & Hlatest & Hfetch).
    apply latest_Ok in Hlatest as (latest & rest & Hrel & Htag & ->).
    apply bind_Ok in Hfetch as (tar & wb & Hurl & Hfetch).
    apply urlretrieve_Ok in Hurl as (bytes & Hdl & -> & ->).
    apply bind_Ok in Hfetch as (infos & wc & Hopen & Hfetch).
    apply tarfile_open_Ok in Hopen as (-> & bytes' & Hstat & Htar).
    cbn [fs] in Hstat. apply stat_downloaded in Hstat as [Htmp ->].
    apply bind_Ok in Hfetch as (u'' & wd & Hext & Hrm).
    apply extractall_Ok in Hext as [_ ->].
    apply unlink_Ok in Hrm. subst w2.
    exists latest, rest, tag, bytes, infos. split_and!; try done.
    + rewrite Hreq. cbn [requests set_fs]. by rewrite <- app_assoc.
    + intros q Hq Hne. unfold extraction_targets in Hq.
      apply list_elem_of_fmap in Hq as (r & -> & Hr).
      destruct (decide (here env (localdir // "latest" //
                  name (fst (clean_revealjs_tar_members (getmembers_store infos)
                                                        (getmembers infos)) r))
                        = here env (localdir // "out" // "revealjs"))) as [Heq|Hneq].
      * rewrite Heq, Hlink. done.
      * rewrite Hfs by done. cbn [fs set_fs]. rewrite fs_set_ne by done.
        by apply put_targets.
Qed.

Lemma latest_is_the_directory_name_witness :
  let env := Sample.env (Sample.config "latest" Sample.off) None (Ok "") in
  let after := initialize_localdir env Sample.localdir "latest" Sample.start in
  fs (fst after) ["home"; "u"; ".markdownreveal"; "out"; "revealjs"]
  = Some (FS.Symlink (Sample.localdir // "latest")).
Proof.
  intros env after.
  refine (proj1 (latest_is_the_directory_name env Sample.localdir (Sample.localdir // "out")
                   Sample.start (fst after) _)).
  vm_compute. reflexivity.
Defined.

(** C7, as stated, fails: version 3.4.1, the newest release, is already
    on disk under its own name; asked for [latest], the call downloads it
    again, extracts it below the directory named [latest] and points the
    reference there. *)
Lemma latest_not_resolved_for_directories :
  let env := Sample.env (Sample.config "latest" Sample.off) None (Ok "") in
  let after := initialize_localdir env Sample.localdir "latest" Sample2.has_341 in
  let dir := ["home"; "u"; ".markdownreveal"] in
  snd after = Ok (Sample.localdir // "out") /\
  requests (fst after) = [releases_url; archive_url "3.4.1"] /\
  fs (fst after) (dir ++ ["out"; "revealjs"]) = Some (FS.Symlink (Sample.localdir // "latest")) /\
  fs (fst after) (dir ++ ["latest"; "css"; "reveal.css"]) = Some (FS.File "css") /\
  fs (fst after) (dir ++ ["3.4.1"; "css"; "reveal.css"]) = None.
Proof. vm_compute. done. Qed.

(** ** [generate] *)

Lemma strip_prefix_app (d rel : FS.path) : FS.strip_prefix d (d ++ rel) = Some rel.
Proof. induction d as [|x d IH]; simpl; [done|]. by rewrite decide_True. Qed.

Lemma rsync_mirror_below (src dst : FS.path) (f : FS.t) (c : string) :
  rsync_excluded [c] = false ->
  rsync_mirror src dst f (dst ++ [c]) = f (src ++ [c]).
Proof. intros Hc. unfold rsync_mirror. by rewrite strip_prefix_app, Hc. Qed.

Lemma component_index : component "index.html" /\ "index.html" <> "..".
Proof. split; [split|]; by vm_compute. Qed.

Lemma component_reload : component ".reload" /\ ".reload" <> "..".
Proof. split; [split|]; by vm_compute. Qed.

(** C1, as the code has it.  When the converter raises, [generate]
    raises the same exception and leaves the world as the mirror sync
    left it: nothing is written to [index.html] and nothing appended to
    [.reload] after the sync.  What the sync left at those two names is
    what the presentation directory has under them, which is nothing when
    it has no such files. *)
Theorem generate_converter_failure
        (env : Env) (w w1 : World) (config : Config)
        (outdir : Pathlib.PurePath) (source : FS.path) (e : exn) :
  loaded env = Ok config ->
  initialize_localdir env (local_path config) (reveal_version config) w = (w1, Ok outdir) ->
  FS.resolve FS.max_links (fs w1) (here env (Pathlib.Path "presentation.md")) = Some source ->
  rsync_fault env = false ->
  let synced := rsync_mirror (removelast source) (here env (output_path config)) (fs w1) in
  pandoc env (FS.stat synced (here env (Pathlib.Path "presentation.md")))
         (extra_args (reveal_extra config)) = Raise e ->
  generate env w = (set_fs w1 synced, Raise e) /\
  synced (here env (output_path config // "index.html"))
  = fs w1 (removelast source ++ ["index.html"]) /\
  synced (here env (output_path config // ".reload"))
  = fs w1 (removelast source ++ [".reload"]).
Proof.
  intros Hconf Hinit Hsrc Hsync synced Hconv. split_and!.
  - unfold generate, bind, load_config, lift. rewrite Hconf, Hinit.
    unfold Path_resolve. rewrite Hsrc.
    unfold rsync. rewrite Hsync. fold synced.
    unfold markdown_to_reveal. cbn [fs set_fs]. by rewrite Hconv.
  - destruct component_index as [Hc Hdd].
    rewrite (here_truediv _ _ _ Hc Hdd). by apply rsync_mirror_below.
  - destruct component_reload as [Hc Hdd].
    rewrite (here_truediv _ _ _ Hc Hdd). by apply rsync_mirror_below.
Qed.

Lemma generate_converter_failure_witness :
  let env := Sample.env (Sample.config "3.4.1" Sample.off) None (Raise ConverterError) in
  snd (generate env Sample2.built) = Raise ConverterError /\
  fs (fst (generate env Sample2.built)) ["home"; "u"; ".markdownreveal"; "out"; "index.html"]
  = fs Sample2.built ["home"; "u"; "talk"; "index.html"].
Proof.
  intros env.
  pose (w1 := fst (initialize_localdir env Sample.localdir "3.4.1" Sample2.built)).
  destruct (generate_converter_failure env Sample2.built w1
              (Sample.config "3.4.1" Sample.off) (Sample.localdir // "out")
              ["home"; "u"; "talk"; "presentation.md"] ConverterError)
    as (Hrun & Hindex & _).
  - vm_compute. reflexivity.
  - vm_compute. reflexivity.
  - vm_compute. reflexivity.
  - vm_compute. reflexivity.
  - vm_compute. reflexivity.
  - rewrite Hrun. cbn [fst snd]. split; [done|]. exact Hindex.
Defined.

(** C1, as stated, fails: the output directory holds the last good page
    and a reload file, the presentation directory has neither, the
    converter raises; afterwards both files are gone. *)
Lemma failed_build_removes_the_page :
  let env := Sample.env (Sample.config "3.4.1" Sample.off) None (Raise ConverterError) in
  let out := ["home"; "u"; ".markdownreveal"; "out"] in
  let after := generate env Sample2.built in
  snd after = Raise ConverterError /\
  fs Sample2.built (out ++ ["index.html"]) = Some (FS.File "<p>last good deck</p>") /\
  fs (fst after) (out ++ ["index.html"]) = None /\
  fs Sample2.built (out ++ [".reload"]) = Some (FS.File ("x" +:+ Str.nl)) /\
  fs (fst after) (out ++ [".reload"]) = None.
Proof. vm_compute. done. Qed.

(** ** The watchdog [Handler] *)
Section Debounce.

Import Watch.
Local Open Scope Z_scope.

Variable build_time : Z -> Z.
Hypothesis build_time_nonneg : forall t, 0 <= build_time t.

(** An event that finds the timer alive changes nothing. *)
Lemma deliver_alive (s : Watcher) (now : Z) :
  is_alive build_time (timer (handler s)) now = true ->
  deliver build_time s now = s.
Proof.
  intros H. unfold deliver, on_any_event. rewrite H. by destruct s.
Qed.

(** An event that finds no timer alive starts one for [now + period]. *)
Lemma deliver_idle (s : Watcher) (now : Z) :
  is_alive build_time (timer (handler s)) now = false ->
  deliver build_time s now =
    {| handler := {| period := period (handler s);
                     timer := {| interval := period (handler s); started := Some now |} |};
       builds := builds s ++ [now + period (handler s)] |}.
Proof. intros H. unfold deliver, on_any_event. by rewrite H. Qed.

(** The events of a burst after its first all find the timer alive. *)
Lemma deliver_all_pending (p t0 : Z) (bs : list Z) (later : list Z) :
  burst p t0 later ->
  let s := {| handler := {| period := p;
                            timer := {| interval := p; started := Some t0 |} |};
              builds := bs |} in
  deliver_all build_time s later = s.
Proof.
  intros Hb s. induction Hb as [|t later Ht _ IH]; [done|].
  unfold deliver_all in *. simpl. rewrite deliver_alive; [exact IH|].
  unfold is_alive. simpl. apply Z.ltb_lt.
  pose proof (build_time_nonneg (t0 + p)). lia.
Qed.

Lemma deliver_all_burst (s : Watcher) (t0 : Z) (later : list Z) :
  is_alive build_time (timer (handler s)) t0 = false ->
  burst (period (handler s)) t0 later ->
  deliver_all build_time s (t0 :: later) =
    {| handler := {| period := period (handler s);
                     timer := {| interval := period (handler s); started := Some t0 |} |};
       builds := builds s ++ [t0 + period (handler s)] |}.
Proof.
  intros Hidle Hb. unfold deliver_all. simpl. rewrite (deliver_idle _ _ Hidle).
  by apply deliver_all_pending.
Qed.

(** C2, as the code has it.  An event that finds the timer alive is
    ignored; a burst delivered to a fresh handler makes one build, at
    one period after the first event; and two bursts make two builds
    when the second starts after the build of the first has finished. *)
Theorem debounce_coalesces :
  (forall (h : Handler) (now : Z),
      is_alive build_time (timer h) now = true ->
      on_any_event build_time h now = (h, None)) /\
  (forall (p t0 : Z) (later : list Z),
      burst p t0 later ->
      builds (deliver_all build_time (fresh p) (t0 :: later)) = [t0 + p]) /\
  (forall (p t0 t1 : Z) (later0 later1 : list Z),
      burst p t0 later0 ->
      burst p t1 later1 ->
      t0 + p + build_time (t0 + p) <= t1 ->
      builds (deliver_all build_time (fresh p) ((t0 :: later0) ++ t1 :: later1))
      = [t0 + p; t1 + p]).
Proof.
  split_and!.
  - intros h now H. unfold on_any_event. by rewrite H.
  - intros p t0 later Hb. by rewrite deliver_all_burst.
  - intros p t0 t1 later0 later1 Hb0 Hb1 Hgap.
    unfold deliver_all. rewrite fold_left_app.
    fold (deliver_all build_time (fresh p) (t0 :: later0)).
    rewrite deliver_all_burst by done.
    match goal with |- context [fold_left _ (t1 :: later1) ?s] =>
      fold (deliver_all build_time s (t1 :: later1)) end.
    rewrite deliver_all_burst; [done| |done].
    unfold is_alive. simpl. apply Z.ltb_ge. lia.
Qed.

End Debounce.

Lemma debounce_coalesces_witness :
  Watch.builds (Watch.deliver_all (fun _ => 30%Z) (Watch.fresh 100)
                  ([0; 10; 99] ++ [130; 131]))%Z
  = [100; 230]%Z.
Proof.
  refine (proj2 (proj2 (debounce_coalesces (fun _ => 30%Z) _)) 100 0 130 [10; 99] [131] _ _ _)%Z.
  - intros t. lia.
  - repeat constructor; lia.
  - repeat constructor; lia.
  - vm_compute. discriminate.
Defined.

(** C2, as stated, fails: a build that takes ten periods is still
    running when a second burst arrives five periods after the first, the
    timer thread is alive, and the second burst is dropped. *)
Lemma second_burst_dropped_during_build :
  ~ (forall (build_time : Z -> Z) (p t0 t1 : Z) (later0 later1 : list Z),
        (forall t, 0 <= build_time t)%Z ->
        Watch.burst p t0 later0 ->
        Watch.burst p t1 later1 ->
        Forall (fun t => t + p < t1)%Z (t0 :: later0) ->
        length (Watch.builds
                  (Watch.deliver_all build_time (Watch.fresh p)
                                     ((t0 :: later0) ++ t1 :: later1))) = 2).
Proof.
  intros H.
  assert (length (Watch.builds
            (Watch.deliver_all (fun _ => 1000%Z) (Watch.fresh 100)
                               (([0] ++ [500])%Z))) = 2) as Htwo.
  { apply (H (fun _ => 1000%Z) 100%Z 0%Z 500%Z [] []).
    - intros t. lia.
    - constructor.
    - constructor.
    - repeat constructor; lia. }
  vm_compute in Htwo. discriminate Htwo.
Qed.

(** * More of the module *)

(** ** [update_config] *)
Section UpdateConfig.

Import Configuration.

Lemma get_set_eq (d : dict) (k : string) (v : value) : get (set d k v) k = Some v.
Proof.
induction d as [|k' v' rest IH]; simpl.
- by rewrite String.eqb_refl.
- destruct (String.eqb k' k) eqn:E; simpl; rewrite E; [done|exact IH].
Qed.

Lemma get_set_ne (d : dict) (k k' : string) (v : value) :
k <> k' -> get (set d k v) k' = get d k'.
Proof.
intros Hne. induction d as [|k0 v0 rest IH]; simpl.
- by apply String.eqb_neq in Hne as ->.
- destruct (String.eqb k0 k) eqn:E; simpl.
  + apply String.eqb_eq in E as ->. by apply String.eqb_neq in Hne as ->.
  + by rewrite IH.
Qed.

Lemma get_None_keys (d : dict) (k : string) : get d k = None <-> k ∉ keys d.
Proof.
induction d as [|k0 v0 rest IH]; simpl.
- split; [intros _; apply not_elem_of_nil|done].
- destruct (String.eqb k0 k) eqn:E.
  + apply String.eqb_eq in E as ->. split; [done|]. intros H. destruct H. by left.
  + apply String.eqb_neq in E. rewrite IH, not_elem_of_cons.
    split; [intros H; split; [congruence|done]|by intros [_ H]].
Qed.

Lemma keys_set (d : dict) (k : string) (v : value) :
keys (set d k v) = if decide (k ∈ keys d) then keys d else keys d ++ [k].
Proof.
induction d as [|k0 v0 rest IH]; cbn [set keys].
- destruct (decide (k ∈ [])) as [Hin|_]; [by apply elem_of_nil in Hin|done].
- destruct (String.eqb k0 k) eqn:E; cbn [keys].
  + apply String.eqb_eq in E as ->.
    destruct (decide (k ∈ k :: keys rest)) as [_|Hout]; [done|]. destruct Hout. by left.
  + apply String.eqb_neq in E. rewrite IH.
    destruct (decide (k ∈ keys rest)) as [Hin|Hout];
      destruct (decide (k ∈ k0 :: keys rest)) as [Hin'|Hout']; try done.
    * destruct Hout'. by right.
    * apply elem_of_cons in Hin' as [->|Hin']; [done|]. by destruct Hout.
Qed.

(** One step of the loop on a dictionary template: if it goes through,
  the template is a dictionary again, with the entry for [key] set. *)
Lemma update_step (t : dict) (key : string) (v : value) (rest : dict) (r : value) :
update_items (VDict t) (DCons key v rest) = Returns r ->
exists x, update_items (VDict (set t key x)) rest = Returns r /\
  match v with
  | VDict sub =>
      exists inner, get_or_empty (VDict t) key = Returns inner /\
                    update_items inner sub = Returns x
  | _ => x = v
  end.
Proof.
simpl. destruct v as [| s | s | p | sub]; simpl; try (intros H; by eexists).
destruct (get t key) as [inner|]; simpl;
  (destruct (update_items _ sub) as [x|e] eqn:Hsub; simpl; [|done]);
  intros H; exists x; (split; [done|]); by eexists.
Qed.

Lemma update_items_dict (c : dict) :
forall (t : dict) (r : value),
  update_items (VDict t) c = Returns r -> exists d, r = VDict d.
Proof.
induction c as [|key v rest IH]; intros t r H.
- simpl in H. injection H as <-. by eexists.
- apply update_step in H as (x & H & _). by eapply IH.
Qed.

Lemma update_items_other_keys (c : dict) :
forall (t r : dict) (k : string),
  update_items (VDict t) c = Returns (VDict r) ->
  k ∉ keys c ->
  get r k = get t k.
Proof.
induction c as [|key v rest IH]; intros t r k H Hk.
- simpl in H. by injection H as <-.
- apply update_step in H as (x & H & _).
  simpl in Hk. apply not_elem_of_cons in Hk as [Hne Hk].
  rewrite (IH _ _ _ H Hk). by apply get_set_ne.
Qed.

Lemma update_items_entry (c : dict) :
forall (t r : dict) (k : string) (v : value),
  NoDup (keys c) ->
  get c k = Some v ->
  update_items (VDict t) c = Returns (VDict r) ->
  exists x, get r k = Some x /\
    match v with
    | VDict sub =>
        exists inner, get_or_empty (VDict t) k = Returns inner /\
                      update_items inner sub = Returns x
    | _ => x = v
    end.
Proof.
induction c as [|key v0 rest IH]; intros t r k v Hnd Hget H; [done|].
simpl in Hnd. apply NoDup_cons in Hnd as [Hkey Hnd].
pose proof H as Hstep. apply update_step in Hstep as (x & Hrest & Hx).
simpl in Hget. destruct (String.eqb key k) eqn:E.
- apply String.eqb_eq in E as ->. injection Hget as ->.
  exists x. split; [|done].
  rewrite (update_items_other_keys _ _ _ _ Hrest Hkey). apply get_set_eq.
- apply String.eqb_neq in E.
  destruct (IH _ _ _ _ Hnd Hget Hrest) as (y & Hy & Hv). exists y. split; [done|].
  destruct v as [| s | s | p | sub]; try done.
  destruct Hv as (inner & Hinner & Hsub). exists inner. split; [|done].
  simpl in *. by rewrite get_set_ne in Hinner.
Qed.

Lemma update_items_keys (c : dict) :
forall (t r : dict),
  NoDup (keys c) ->
  update_items (VDict t) c = Returns (VDict r) ->
  keys r = keys t ++ List.filter (fun k => bool_decide (k ∉ keys t)) (keys c).
Proof.
induction c as [|key v rest IH]; intros t r Hnd H.
- simpl in H. injection H as <-. simpl. by rewrite app_nil_r.
- simpl in Hnd. apply NoDup_cons in Hnd as [Hkey Hnd].
  apply update_step in H as (x & H & _).
  rewrite (IH _ _ Hnd H), keys_set. simpl.
  assert (forall l, key ∉ l ->
            List.filter (fun k => bool_decide (k ∉ keys t ++ [key])) l
            = List.filter (fun k => bool_decide (k ∉ keys t)) l) as Hfilter.
  { induction l as [|a l IHl]; intros Hl; [done|].
    apply not_elem_of_cons in Hl as [Hne Hl]. simpl. rewrite (IHl Hl).
    assert (bool_decide (a ∉ keys t ++ [key]) = bool_decide (a ∉ keys t)) as ->; [|done].
    apply bool_decide_ext. rewrite elem_of_app, list_elem_of_singleton.
    split; [intros Hn Ha; apply Hn; by left|intros Hn [Ha| ->]; [by apply Hn|done]]. }
  destruct (decide (key ∈ keys t)) as [Hin|Hout].
  + rewrite bool_decide_eq_false_2 by (intros Hn; by apply Hn). done.
  + rewrite bool_decide_eq_true_2 by done.
    rewrite (Hfilter _ Hkey), <- app_assoc. done.
Qed.

End UpdateConfig.

Section UpdateConfigFacts.

Import Configuration.

Lemma update_items_scalar_template (s : value) (key : string) (v : value) (rest : dict) :
(forall d, s <> VDict d) ->
exists e, update_items s (DCons key v rest) = Raises e.
Proof.
intros Hs. destruct s as [| | | |d]; try (by destruct (Hs d));
  destruct v; simpl; by eexists.
Qed.

(** X1.  A setting of the second dictionary that is not itself a mapping
  ends up in the result as it is, whatever the first dictionary had
  under that key. *)
Theorem update_config_scalar_wins (t c : dict) (r : value) (k : string) (v : value) :
NoDup (keys c) ->
get c k = Some v ->
(forall sub, v <> VDict sub) ->
update_config (VDict t) (VDict c) = Returns r ->
getitem r k = Returns v.
Proof.
intros Hnd Hget Hv H. simpl in H.
destruct (update_items_dict _ _ _ H) as [d ->].
destruct (update_items_entry _ _ _ _ _ Hnd Hget H) as (x & Hx & Hxv).
simpl. rewrite Hx. destruct v as [| | | |sub]; try by subst. by destruct (Hv sub).
Qed.

Lemma update_config_scalar_wins_witness :
exists r, update_config (VDict sample_template) (VDict sample_override) = Returns r /\
          getitem r "theme" = Returns (VStr "night").
Proof.
destruct (update_config (VDict sample_template) (VDict sample_override)) as [r|e] eqn:Hrun;
  [|by vm_compute in Hrun].
exists r. split; [done|].
apply (update_config_scalar_wins sample_template sample_override).
- apply (bool_decide_unpack _). vm_compute. exact I.
- vm_compute. reflexivity.
- intros sub. discriminate.
- exact Hrun.
Defined.

(** X2.  Whatever the first dictionary has under a key the second does
  not mention is still there afterwards, unchanged. *)
Theorem update_config_keeps_other_keys (t c : dict) (r : value) (k : string) :
update_config (VDict t) (VDict c) = Returns r ->
get c k = None ->
exists d, r = VDict d /\ get d k = get t k.
Proof.
intros H Hk. simpl in H. destruct (update_items_dict _ _ _ H) as [d ->].
exists d. split; [done|]. apply (update_items_other_keys _ _ _ _ H).
by apply get_None_keys.
Qed.

Lemma update_config_keeps_other_keys_witness :
exists d, update_config (VDict sample_template) (VDict sample_override) = Returns (VDict d) /\
          get d "reveal_version" = Some (VStr "latest").
Proof.
destruct (update_config (VDict sample_template) (VDict sample_override)) as [r|e] eqn:Hrun;
  [|by vm_compute in Hrun].
destruct (update_config_keeps_other_keys sample_template sample_override r "reveal_version" Hrun)
  as (d & -> & Hd).
- vm_compute. reflexivity.
- exists d. split; [done|]. rewrite Hd. vm_compute. reflexivity.
Defined.

(** X3.  A mapping in the second dictionary is merged, by the same
  function, into what the first dictionary has under that key, or into
  an empty dictionary when it has nothing there; the merged mapping is
  what the result holds. *)
Theorem update_config_merges_nested (t c : dict) (r : value) (k : string) (sub : dict) :
NoDup (keys c) ->
get c k = Some (VDict sub) ->
update_config (VDict t) (VDict c) = Returns r ->
exists merged,
  update_config (from_option id (VDict DNil) (get t k)) (VDict sub) = Returns merged /\
  getitem r k = Returns merged.
Proof.
intros Hnd Hget H. simpl in H.
destruct (update_items_dict _ _ _ H) as [d ->].
destruct (update_items_entry _ _ _ _ _ Hnd Hget H) as (x & Hx & inner & Hinner & Hsub).
exists x. simpl. rewrite Hx. split; [|done].
simpl in Hinner. destruct (get t k); injection Hinner as <-; exact Hsub.
Qed.

Lemma update_config_merges_nested_witness :
exists r,
  update_config (VDict sample_template) (VDict sample_override) = Returns r /\
  getitem r "reveal_extra"
  = Returns (VDict (of_items [("slideNumber", VOther "true"); ("theme", VStr "white");
                              ("controls", VOther "false")])).
Proof.
destruct (update_config (VDict sample_template) (VDict sample_override)) as [r|e] eqn:Hrun;
  [|by vm_compute in Hrun].
destruct (update_config_merges_nested sample_template sample_override r "reveal_extra"
            (of_items [("controls", VOther "false")]))
  as (merged & Hmerged & Hr).
- apply (bool_decide_unpack _). vm_compute. exact I.
- vm_compute. reflexivity.
- exact Hrun.
- exists r. split; [done|]. rewrite Hr. f_equal.
  vm_compute in Hmerged. by injection Hmerged as <-.
Defined.

(** X4.  The keys of the result are the keys of the first dictionary in
  their order, followed by the keys only the second one has, in the
  order of the second. *)
Theorem update_config_key_order (t c d : dict) :
NoDup (keys c) ->
update_config (VDict t) (VDict c) = Returns (VDict d) ->
keys d = keys t ++ List.filter (fun k => bool_decide (k ∉ keys t)) (keys c).
Proof. intros Hnd H. by apply update_items_keys. Qed.

Lemma update_config_key_order_witness :
exists d,
  update_config (VDict sample_template) (VDict sample_override) = Returns (VDict d) /\
  keys d = ["local_path"; "reveal_version"; "theme"; "footer"; "reveal_extra"; "logo"].
Proof.
eexists. split; [vm_compute; reflexivity|].
rewrite (update_config_key_order sample_template sample_override).
- vm_compute. reflexivity.
- apply (bool_decide_unpack _). vm_compute. exact I.
- vm_compute. reflexivity.
Defined.

(** X5.  A non-empty mapping in the second dictionary under a key where
  the first has something that is not a mapping makes the call raise;
  an empty mapping there leaves the first dictionary's value in place. *)
Theorem update_config_mapping_over_scalar
      (t c : dict) (k : string) (s : value) (sub : dict) :
NoDup (keys c) ->
get c k = Some (VDict sub) ->
get t k = Some s ->
(forall d, s <> VDict d) ->
match sub with
| DNil => forall r, update_config (VDict t) (VDict c) = Returns r -> getitem r k = Returns s
| DCons _ _ _ => exists e, update_config (VDict t) (VDict c) = Raises e
end.
Proof.
intros Hnd Hget Ht Hs.
assert (forall r, update_config (VDict t) (VDict c) = Returns r ->
                  exists x, getitem r k = Returns x /\ update_items s sub = Returns x) as Hinv.
{ intros r H. simpl in H. destruct (update_items_dict _ _ _ H) as [d ->].
  destruct (update_items_entry _ _ _ _ _ Hnd Hget H) as (x & Hx & inner & Hinner & Hsub).
  simpl in Hinner. rewrite Ht in Hinner. injection Hinner as <-.
  exists x. simpl. by rewrite Hx. }
destruct sub as [|key v rest].
- intros r H. destruct (Hinv r H) as (x & Hx & Hsub). simpl in Hsub.
  by injection Hsub as <-.
- destruct (update_config (VDict t) (VDict c)) as [r|e] eqn:H; [|by exists e].
  destruct (Hinv r eq_refl) as (x & _ & Hsub).
  destruct (update_items_scalar_template s key v rest Hs) as [e He].
  rewrite He in Hsub. done.
Qed.

Lemma update_config_mapping_over_scalar_witness :
exists e, update_config (VDict sample_template) (VDict sample_clash) = Raises e.
Proof.
apply (update_config_mapping_over_scalar sample_template sample_clash "footer" (VStr "")
         (of_items [("text", VStr "me")])).
- apply (bool_decide_unpack _). vm_compute. exact I.
- vm_compute. reflexivity.
- vm_compute. reflexivity.
- intros d. discriminate.
Defined.

End UpdateConfigFacts.

(** ** [load_config] *)
Section LoadConfigFacts.

Import Configuration.

Context (env : Env) (w : World) (home : Pathlib.PurePath).
Context (template : outcome value) (yaml_load : string -> outcome value).

Local Abbreviation load := (load_config env w home template yaml_load).
Local Abbreviation merged_now := (merged_config env w template yaml_load).

Lemma obind_Returns {A B} (m : outcome A) (k : A -> outcome B) (b : B) :
obind m k = Returns b -> exists a, m = Returns a /\ k a = Returns b.
Proof. destruct m as [a|e]; [|done]. intros H. by exists a. Qed.

Lemma getitem_Returns (t : value) (key : string) (v : value) :
getitem t key = Returns v -> exists d, t = VDict d /\ get d key = Some v.
Proof.
destruct t as [| | | |d]; try done. simpl.
destruct (get d key) as [x|] eqn:E; [|done]. intros [= <-]. by exists d.
Qed.

Lemma setitem_Returns (t : value) (key : string) (v r : value) :
setitem t key v = Returns r -> exists d, t = VDict d /\ r = VDict (set d key v).
Proof. destruct t as [| | | |d]; try done. intros [= <-]. by exists d. Qed.

(** What a call that returns has done, statement by statement. *)
Lemma load_config_Returns (cfg : value) :
load = Returns cfg ->
exists (m : dict) (configured : value) (lp : Pathlib.PurePath)
       (theme : value) (extra : dict),
  merged_now = Returns (VDict m) /\
  get m "local_path" = Some configured /\
  under home configured = Returns lp /\
  get m "theme" = Some theme /\
  get m "reveal_extra" = Some (VDict extra) /\
  cfg = VDict (set (set (set m "local_path" (VPath lp))
                        "output_path" (VPath (lp // "out")))
                   "reveal_extra" (VDict (set extra "theme" theme))).
Proof.
unfold load_config. intros H.
apply obind_Returns in H as (merged & Hmerged & H).
apply obind_Returns in H as (configured & Hconf & H).
apply getitem_Returns in Hconf as (m & -> & Hconf).
apply obind_Returns in H as (lp & Hlp & H).
simpl in H.
destruct (get (set (set m "local_path" (VPath lp)) "output_path" (VPath (lp // "out")))
              "theme") as [theme|] eqn:Htheme; [|done].
destruct (get (set (set m "local_path" (VPath lp)) "output_path" (VPath (lp // "out")))
              "reveal_extra") as [extra|] eqn:Hextra; [|done].
simpl in H.
apply obind_Returns in H as (extra' & Hset & H).
apply setitem_Returns in Hset as (e & -> & ->).
simpl in H. injection H as <-.
rewrite !get_set_ne in Htheme by done. rewrite !get_set_ne in Hextra by done.
by exists m, configured, lp, theme, e.
Qed.

(** X6.  In the configuration [load_config] returns, [local_path] is
  the configured path taken from the home directory, an absolute
  configured path standing for itself, and [output_path] is [out]
  below it. *)
Theorem load_config_paths (cfg : value) :
load = Returns cfg ->
exists merged configured lp,
  merged_now = Returns merged /\
  getitem merged "local_path" = Returns configured /\
  under home configured = Returns lp /\
  getitem cfg "local_path" = Returns (VPath lp) /\
  getitem cfg "output_path" = Returns (VPath (lp // "out")) /\
  (forall s, configured = VStr s ->
     lp = if Pathlib.is_absolute (Pathlib.Path s) then Pathlib.Path s
          else {| Pathlib.root := Pathlib.root home;
                  Pathlib.names := Pathlib.names home ++ Pathlib.names (Pathlib.Path s) |}).
Proof.
intros H. apply load_config_Returns in H
  as (m & configured & lp & theme & extra & Hm & Hconf & Hlp & _ & _ & ->).
exists (VDict m), configured, lp. split_and!; try done.
- simpl. by rewrite Hconf.
- simpl. rewrite get_set_ne by done. rewrite get_set_ne by done. by rewrite get_set_eq.
- simpl. rewrite get_set_ne by done. by rewrite get_set_eq.
- intros s ->. simpl in Hlp. by injection Hlp as <-.
Qed.

(** X7.  In the configuration [load_config] returns, the [theme] entry
  of [reveal_extra] is the configured [theme], whatever [reveal_extra]
  said about it, and the other entries of [reveal_extra] are the
  configured ones. *)
Theorem load_config_theme (cfg : value) :
load = Returns cfg ->
exists merged theme extra configured_extra,
  merged_now = Returns merged /\
  getitem merged "theme" = Returns theme /\
  getitem cfg "theme" = Returns theme /\
  getitem merged "reveal_extra" = Returns (VDict configured_extra) /\
  getitem cfg "reveal_extra" = Returns (VDict extra) /\
  get extra "theme" = Some theme /\
  (forall k, k <> "theme" -> get extra k = get configured_extra k).
Proof.
intros H. apply load_config_Returns in H
  as (m & configured & lp & theme & extra & Hm & _ & _ & Htheme & Hextra & ->).
exists (VDict m), theme, (set extra "theme" theme), extra. split_and!; try done.
- simpl. by rewrite Htheme.
- simpl. rewrite !get_set_ne by done. by rewrite Htheme.
- simpl. by rewrite Hextra.
- simpl. by rewrite get_set_eq.
- apply get_set_eq.
- intros k Hk. by apply get_set_ne.
Qed.

(** X8.  Every setting other than [local_path], [output_path] and
  [reveal_extra] is returned as configured; with a [config.yaml] that
  sets it to something that is not a mapping, that is the value of
  [config.yaml]. *)
Theorem load_config_project_file_wins
      (cfg : value) (t o : dict) (k : string) (v : value) :
load = Returns cfg ->
template = Returns (VDict t) ->
path_exists env w (Pathlib.Path "config.yaml") = true ->
load_file env w yaml_load "config.yaml" = Returns (VDict o) ->
NoDup (keys o) ->
get o k = Some v ->
(forall sub, v <> VDict sub) ->
k ∉ ["local_path"; "output_path"; "reveal_extra"] ->
getitem cfg k = Returns v.
Proof.
intros H Ht Hex Hfile Hnd Hget Hv Hk.
apply load_config_Returns in H
  as (m & configured & lp & theme & extra & Hm & _ & _ & _ & _ & ->).
unfold merged_config in Hm. rewrite Ht in Hm. simpl in Hm.
rewrite Hex, Hfile in Hm. simpl in Hm.
destruct (update_items_entry _ _ _ _ _ Hnd Hget Hm) as (x & Hx & Hxv).
assert (x = v) as -> by (destruct v as [| | | |sub]; try done; by destruct (Hv sub)).
apply not_elem_of_cons in Hk as [Hk1 Hk]. apply not_elem_of_cons in Hk as [Hk2 Hk].
apply not_elem_of_cons in Hk as [Hk3 _].
simpl. rewrite !get_set_ne by done. by rewrite Hx.
Qed.

(** X9.  Without a [config.yaml] the result is the template with the
  three computed entries set: every other key is as in the template. *)
Theorem load_config_template_only (cfg : value) (t : dict) (k : string) :
load = Returns cfg ->
template = Returns (VDict t) ->
path_exists env w (Pathlib.Path "config.yaml") = false ->
k ∉ ["local_path"; "output_path"; "reveal_extra"] ->
exists d, cfg = VDict d /\ get d k = get t k.
Proof.
intros H Ht Hex Hk.
apply load_config_Returns in H
  as (m & configured & lp & theme & extra & Hm & _ & _ & _ & _ & ->).
unfold merged_config in Hm. rewrite Ht in Hm. simpl in Hm. rewrite Hex in Hm.
injection Hm as <-.
apply not_elem_of_cons in Hk as [Hk1 Hk]. apply not_elem_of_cons in Hk as [Hk2 Hk].
apply not_elem_of_cons in Hk as [Hk3 _].
eexists. split; [done|]. by rewrite !get_set_ne.
Qed.

(** X10.  A [config.yaml] that does not hold a mapping, an empty file
  for one, makes [load_config] raise [AttributeError]; a configuration
  without [local_path] makes it raise [KeyError]. *)
Theorem load_config_rejects (t : value) :
template = Returns t ->
(forall v, path_exists env w (Pathlib.Path "config.yaml") = true ->
           load_file env w yaml_load "config.yaml" = Returns v ->
           (forall d, v <> VDict d) ->
           load = Raises AttributeError) /\
(forall m, merged_now = Returns (VDict m) ->
           get m "local_path" = None ->
           load = Raises (Builtin (KeyError "local_path"))).
Proof.
intros Ht. split.
- intros v Hex Hfile Hv. unfold load_config, merged_config.
  rewrite Ht. simpl. rewrite Hex, Hfile. simpl.
  destruct v as [| | | |d]; try done. by destruct (Hv d).
- intros m Hm Hnone. unfold load_config. rewrite Hm. simpl. by rewrite Hnone.
Qed.

End LoadConfigFacts.

Section LoadConfigSamples.

Import Configuration.

Lemma load_config_paths_witness :
exists cfg,
  load_config Sample.plain_env sample_world sample_home
              (Returns (VDict sample_template)) (fun _ => Returns (VDict sample_override))
  = Returns cfg /\
  getitem cfg "output_path" = Returns (VPath (Pathlib.Path "/home/u/.markdownreveal/out")).
Proof.
destruct (load_config Sample.plain_env sample_world sample_home
            (Returns (VDict sample_template)) (fun _ => Returns (VDict sample_override)))
  as [cfg|e] eqn:Hrun; [|by vm_compute in Hrun].
exists cfg. split; [done|].
destruct (load_config_paths _ _ _ _ _ cfg Hrun)
  as (merged & configured & lp & Hm & Hconf & Hlp & _ & Hout & _).
rewrite Hout. vm_compute in Hm. injection Hm as <-.
vm_compute in Hconf. injection Hconf as <-.
vm_compute in Hlp. injection Hlp as <-. by vm_compute.
Defined.

Lemma load_config_theme_witness :
exists cfg extra,
  load_config Sample.plain_env sample_world sample_home
              (Returns (VDict sample_template)) (fun _ => Returns (VDict sample_override))
  = Returns cfg /\
  getitem cfg "reveal_extra" = Returns (VDict extra) /\
  get extra "theme" = Some (VStr "night").
Proof.
destruct (load_config Sample.plain_env sample_world sample_home
            (Returns (VDict sample_template)) (fun _ => Returns (VDict sample_override)))
  as [cfg|e] eqn:Hrun; [|by vm_compute in Hrun].
destruct (load_config_theme _ _ _ _ _ cfg Hrun)
  as (merged & theme & extra & configured & Hm & Htheme & _ & _ & Hextra & Hget & _).
exists cfg, extra. split_and!; [done..|].
rewrite Hget. vm_compute in Hm. injection Hm as <-.
vm_compute in Htheme. by injection Htheme as <-.
Defined.

Lemma load_config_project_file_wins_witness :
exists cfg,
  load_config Sample.plain_env sample_world sample_home
              (Returns (VDict sample_template)) (fun _ => Returns (VDict sample_override))
  = Returns cfg /\
  getitem cfg "footer" = Returns (VStr "me").
Proof.
destruct (load_config Sample.plain_env sample_world sample_home
            (Returns (VDict sample_template)) (fun _ => Returns (VDict sample_override)))
  as [cfg|e] eqn:Hrun; [|by vm_compute in Hrun].
exists cfg. split; [done|].
apply (load_config_project_file_wins _ _ _ _ _ cfg sample_template sample_override
         "footer" (VStr "me") Hrun).
- reflexivity.
- vm_compute. reflexivity.
- vm_compute. reflexivity.
- apply (bool_decide_unpack _). vm_compute. exact I.
- vm_compute. reflexivity.
- intros sub. discriminate.
- apply (bool_decide_unpack _). vm_compute. exact I.
Defined.

Lemma load_config_template_only_witness :
exists d,
  load_config Sample.plain_env Sample.start sample_home
              (Returns (VDict sample_template)) (fun _ => Raises AttributeError)
  = Returns (VDict d) /\
  get d "footer" = Some (VStr "").
Proof.
destruct (load_config Sample.plain_env Sample.start sample_home
            (Returns (VDict sample_template)) (fun _ => Raises AttributeError))
  as [cfg|e] eqn:Hrun; [|by vm_compute in Hrun].
destruct (load_config_template_only _ _ _ _ _ cfg sample_template "footer" Hrun)
  as (d & -> & Hd).
- reflexivity.
- vm_compute. reflexivity.
- apply (bool_decide_unpack _). vm_compute. exact I.
- exists d. split; [done|]. rewrite Hd. vm_compute. reflexivity.
Defined.

Lemma load_config_rejects_witness :
load_config Sample.plain_env sample_world sample_home
            (Returns (VDict sample_template)) (fun _ => Returns VNone)
= Raises AttributeError.
Proof.
refine (proj1 (load_config_rejects Sample.plain_env sample_world sample_home
                 (Returns (VDict sample_template)) (fun _ => Returns VNone)
                 (VDict sample_template) _) VNone _ _ _).
- reflexivity.
- vm_compute. reflexivity.
- vm_compute. reflexivity.
- intros d. discriminate.
Defined.

End LoadConfigSamples.

(** ** [find_indexes], once more *)

Lemma find_indexes_from_complete (regex : string) (haystack : list string) :
  forall (i k : nat) (item : string),
    haystack !! k = Some item ->
    matches regex item ->
    i + k ∈ find_indexes_from i haystack regex.
Proof.
  induction haystack as [|x l IH]; intros i k item Hk Hm; [done|].
  destruct k as [|k]; simpl in *.
  - injection Hk as ->. unfold matches in Hm. rewrite Hm, Nat.add_0_r. by left.
  - replace (i + S k) with (S i + k) by lia.
    destruct (Re.search regex x); [right|]; by eapply IH.
Qed.

Lemma find_indexes_from_sorted (regex : string) (haystack : list string) (i : nat) :
  StronglySorted lt (find_indexes_from i haystack regex).
Proof.
  revert i. induction haystack as [|x l IH]; intros i; simpl; [constructor|].
  destruct (Re.search regex x); [|apply IH].
  constructor; [apply IH|]. apply Forall_forall. intros n Hn.
  apply find_indexes_from_bounds in Hn. lia.
Qed.

(** X11.  [find_indexes] returns exactly the positions of the items the
    expression is found in, each once and in increasing order. *)
Theorem find_indexes_exact (haystack : list string) (regex : string) :
  (forall n, n ∈ find_indexes haystack regex <->
             exists item, haystack !! n = Some item /\ matches regex item) /\
  StronglySorted lt (find_indexes haystack regex).
Proof.
  split; [|apply find_indexes_from_sorted].
  intros n. unfold find_indexes. split.
  - intros Hn. destruct (find_indexes_from_sound _ _ _ _ Hn) as (k & item & -> & Hk & Hm).
    by exists item.
  - intros (item & Hn & Hm). by apply (find_indexes_from_complete regex haystack 0 n item).
Qed.

(** ** [clean_revealjs_tar_members], once more *)

Lemma clean_loop_filter (members : list ref) :
  forall (h : Store) (acc : list ref),
    NoDup members ->
    snd (clean_loop members h acc)
    = acc ++ List.filter (fun r => survives (name (h r))) members.
Proof.
  induction members as [|m rest IH]; intros h acc Hnd; simpl.
  - by rewrite app_nil_r.
  - apply NoDup_cons in Hnd as [Hm Hnd]. unfold survives at 1.
    destruct (Pathlib.is_absolute (Pathlib.Path (name (h m)))); simpl; [by apply IH|].
    destruct (tail (Pathlib.parts (Pathlib.Path (name (h m))))) as [|p0 ps]; [by apply IH|].
    destruct (String.eqb p0 "test"); simpl; [by apply IH|].
    rewrite IH by done. rewrite <- app_assoc. simpl. do 2 f_equal.
    apply filter_ext_in. intros r Hr.
    rewrite set_name_other; [done|]. intros ->. apply Hm. by apply list_elem_of_In.
Qed.

(** X12.  Of the members an archive hands over, the cleaned list holds,
    in the archive's order, exactly those whose path is relative, has at
    least two parts and has a second part other than [test]. *)
Theorem clean_keeps_exactly (infos : list TarInfo) :
  snd (clean_revealjs_tar_members (getmembers_store infos) (getmembers infos))
  = List.filter (fun r => survives (name (getmembers_store infos r))) (getmembers infos).
Proof.
  unfold clean_revealjs_tar_members. rewrite clean_loop_filter; [done|].
  apply NoDup_seq.
Qed.

Lemma clean_loop_renames (members : list ref) :
  forall (h : Store) (acc : list ref) (r : ref),
    let after := clean_loop members h acc in
    isdir (fst after r) = isdir (h r) /\
    data (fst after r) = data (h r) /\
    (r ∉ snd after -> name (fst after r) = name (h r)) /\
    (forall a, a ∈ acc -> a ∈ snd after).
Proof.
  induction members as [|m rest IH]; intros h acc r; simpl; [done|].
  destruct (Pathlib.is_absolute (Pathlib.Path (name (h m)))); [apply IH|].
  destruct (tail (Pathlib.parts (Pathlib.Path (name (h m))))) as [|p0 ps]; [apply IH|].
  destruct (String.eqb p0 "test"); [apply IH|].
  set (h1 := set_name h m _).
  destruct (IH h1 (acc ++ [m]) r) as (Hdir & Hdata & Hname & Hacc).
  assert (isdir (h1 r) = isdir (h r) /\ data (h1 r) = data (h r)) as [Hd1 Hd2].
  { unfold h1, set_name. by destruct (Nat.eqb r m). }
  split_and!.
  - by rewrite Hdir.
  - by rewrite Hdata.
  - intros Hr. rewrite (Hname Hr). unfold h1. rewrite set_name_other; [done|].
    intros ->. apply Hr, Hacc, elem_of_app. right. by left.
  - intros a Ha. apply Hacc, elem_of_app. by left.
Qed.

(** X13.  Cleaning changes names and nothing else: every member keeps
    its kind and its contents, and a member that is not in the cleaned
    list keeps its name as well. *)
Theorem clean_only_renames (h : Store) (members : list ref) (r : ref) :
  let after := clean_revealjs_tar_members h members in
  isdir (fst after r) = isdir (h r) /\
  data (fst after r) = data (h r) /\
  (r ∉ snd after -> name (fst after r) = name (h r)).
Proof.
  destruct (clean_loop_renames members h [] r) as (H1 & H2 & H3 & _). done.
Qed.

Lemma clean_only_renames_witness :
  let after := clean_revealjs_tar_members (getmembers_store Sample.tar) (getmembers Sample.tar) in
  name (fst after 2) = "reveal.js-3.4.1/test/test.js" /\ data (fst after 1) = "css".
Proof.
  intros after.
  destruct (clean_only_renames (getmembers_store Sample.tar) (getmembers Sample.tar) 2)
    as (_ & _ & Hname).
  destruct (clean_only_renames (getmembers_store Sample.tar) (getmembers Sample.tar) 1)
    as (_ & Hdata & _).
  split.
  - apply Hname. apply (bool_decide_unpack _). vm_compute. exact I.
  - exact Hdata.
Defined.

(** ** [tweak_html], once more *)

Lemma insert_sublist {A} (l : list A) (i : nat) (x : A) : sublist l (PyList.insert l i x).
Proof.
  unfold PyList.insert. rewrite <- (take_drop i l) at 1.
  apply sublist_app; [done|]. by apply sublist_cons.
Qed.

Lemma insert_after_each_sublist (indexes : list nat) (text : string) (html : list string) :
  sublist html (insert_after_each indexes text html).
Proof.
  unfold insert_after_each. revert html.
  induction indexes as [|i rest IH]; intros html; simpl; [done|].
  etrans; [apply insert_sublist|apply IH].
Qed.

Lemma alter_at_end {A} (f : A -> A) (pre : list A) (x : A) (l : list A) :
  alter f (length pre) (pre ++ x :: l) = pre ++ f x :: l.
Proof. rewrite <- (Nat.add_0_r (length pre)). by rewrite alter_app_r. Qed.

Lemma replace_at_each_from (regex : string) (f : string -> string) (l : list string) :
  forall pre : list string,
    fold_left (fun html index => PyList.update html index f)
              (find_indexes_from (length pre) l regex) (pre ++ l)
    = pre ++ map (fun line => if Re.search regex line then f line else line) l.
Proof.
  induction l as [|x l IH]; intros pre; simpl; [done|].
  destruct (Re.search regex x) eqn:Hx; simpl.
  - unfold PyList.update at 2. rewrite alter_at_end.
    specialize (IH (pre ++ [f x])). rewrite length_app, Nat.add_1_r in IH.
    rewrite <- !app_assoc in IH. exact IH.
  - specialize (IH (pre ++ [x])). rewrite length_app, Nat.add_1_r in IH.
    rewrite <- !app_assoc in IH. exact IH.
Qed.

(** X14.  The five inserting blocks never drop or reorder a line: the
    lines they are given are, in order, among the lines they return.  The
    background block returns as many lines as it is given. *)
Theorem tweak_blocks_keep_lines
        (env : Env) (w : World) (config : Config) (html html' : list string) :
  (tweak_custom_css config html = Ok html' -> sublist html html') /\
  (tweak_warmup env w config html = Ok html' -> sublist html html') /\
  (tweak_footer config html = Ok html' -> sublist html html') /\
  (tweak_header config html = Ok html' -> sublist html html') /\
  (tweak_logo env w config html = Ok html' -> sublist html html') /\
  (tweak_background env w config html = Ok html' -> length html' = length html).
Proof.
  split_and!.
  - unfold tweak_custom_css. destruct (getitem config "custom_css") as [v|e]; [|done].
    simpl. destruct (truthy v); [|by intros [= <-]].
    destruct (find_indexes html stylesheet_marker) as [|i rest]; [done|].
    simpl. intros [= <-]. apply insert_sublist.
  - unfold tweak_warmup. destruct (path_guard env w config "warmup") as [[b v]|e]; [|done].
    simpl. destruct b; [|by intros [= <-]].
    destruct (find_indexes html slides_marker) as [|i rest]; [done|].
    simpl. intros [= <-]. apply insert_sublist.
  - unfold tweak_footer. destruct (getitem config "footer") as [v|e]; [|done].
    simpl. destruct (truthy v); intros [= <-]; [apply insert_after_each_sublist|done].
  - unfold tweak_header. destruct (getitem config "header") as [v|e]; [|done].
    simpl. destruct (truthy v); intros [= <-]; [apply insert_after_each_sublist|done].
  - unfold tweak_logo. destruct (path_guard env w config "logo") as [[b v]|e]; [|done].
    simpl. destruct b; intros [= <-]; [apply insert_after_each_sublist|done].
  - unfold tweak_background. destruct (path_guard env w config "background") as [[b v]|e]; [|done].
    simpl. destruct b; intros [= <-]; [|done].
    unfold replace_at_each, find_indexes.
    rewrite (replace_at_each_from section_marker _ html []). simpl. by rewrite length_map.
Qed.

Lemma tweak_blocks_keep_lines_witness :
  sublist (Str.splitlines Sample.two_reveal)
          [ reveal_marker; footer_line (PyStr "&copy; me"); "<p>a</p>";
            footer_line (PyStr "&copy; me"); reveal_marker; "<p>b</p>" ].
Proof.
  refine (proj1 (proj2 (proj2 (tweak_blocks_keep_lines Sample.plain_env Sample.start
            (Sample.config "3.4.1" Sample.footer_only) _ _))) _).
  vm_compute. reflexivity.
Defined.

(** X15.  With a background that exists, the background block rewrites
    every line the section tag is found in, replacing each occurrence of
    the tag in it, and leaves every other line as it is. *)
Theorem tweak_background_rewrites_lines
        (env : Env) (w : World) (config : Config) (html : list string) (s : string) :
  items config !! "background" = Some (PyStr s) ->
  path_exists env w (Pathlib.Path s) = true ->
  tweak_background env w config html = Ok (map (with_background (PyStr s)) html).
Proof.
  intros Hs Hex. rewrite (tweak_background_guard env w config html s Hs), Hex.
  unfold replace_at_each, find_indexes.
  by rewrite (replace_at_each_from section_marker _ html []).
Qed.

Lemma tweak_background_rewrites_lines_witness :
  tweak_background Sample.plain_env Sample.start (Sample.config "3.4.1" Sample.blank)
                   ["<section>"; "<p>a</p>"; "<section><section>"]
  = Ok [ background_tag (PyStr ""); "<p>a</p>";
         background_tag (PyStr "") +:+ background_tag (PyStr "") ].
Proof.
  rewrite (tweak_background_rewrites_lines Sample.plain_env Sample.start
             (Sample.config "3.4.1" Sample.blank) _ "").
  - vm_compute. reflexivity.
  - vm_compute. reflexivity.
  - vm_compute. reflexivity.
Defined.

(** X16.  With a warm-up image that exists: when the slides marker is
    found in no line the block raises [IndexError]; when line [i] is the
    first it is found in, the image section becomes line [i + 1] and
    nothing else moves before it. *)
Theorem tweak_warmup_needs_marker
        (env : Env) (w : World) (config : Config) (html : list string) (s : string) :
  items config !! "warmup" = Some (PyStr s) ->
  path_exists env w (Pathlib.Path s) = true ->
  (Forall (fun line => ~ matches slides_marker line) html ->
   tweak_warmup env w config html = Raise IndexError) /\
  (forall (i : nat) (line : string),
      html !! i = Some line ->
      matches slides_marker line ->
      (forall j l, j < i -> html !! j = Some l -> ~ matches slides_marker l) ->
      tweak_warmup env w config html
      = Ok (take (S i) html ++ warmup_line (PyStr s) :: drop (S i) html)).
Proof.
  intros Hs Hex. rewrite (tweak_warmup_guard env w config html s Hs), Hex. split.
  - intros Hnone. unfold find_indexes. by rewrite find_indexes_from_none.
  - intros i line Hi Hm Hfirst.
    destruct (find_indexes_from_first slides_marker html 0 i line Hi Hm Hfirst) as [rest Hrest].
    unfold find_indexes. rewrite Hrest. simpl. unfold PyList.insert. by rewrite Nat.add_1_r.
Qed.

Lemma tweak_warmup_needs_marker_witness :
  tweak_warmup Sample.plain_env Sample.start (Sample.config "3.4.1" Sample.blank)
               (Str.splitlines Sample.two_reveal)
  = Raise IndexError.
Proof.
  refine (proj1 (tweak_warmup_needs_marker Sample.plain_env Sample.start
                   (Sample.config "3.4.1" Sample.blank) _ "" _ _) _).
  - vm_compute. reflexivity.
  - vm_compute. reflexivity.
  - repeat constructor; by vm_compute.
Defined.

Lemma rbind_Ok {A B} (m : result A) (k : A -> result B) (b : B) :
  rbind m k = Ok b -> exists a, m = Ok a /\ k a = Ok b.
Proof. destruct m as [a|e]; [|done]. intros H. by exists a. Qed.

Lemma getitem_Ok (config : Config) (key : string) (v : pyval) :
  getitem config key = Ok v -> items config !! key = Some v.
Proof. unfold getitem. destruct (items config !! key); [|done]. by intros [= ->]. Qed.

Lemma path_guard_Ok (env : Env) (w : World) (config : Config) (key : string) (g : bool * pyval) :
  path_guard env w config key = Ok g ->
  exists s, items config !! key = Some (PyStr s).
Proof.
  unfold path_guard. intros H. apply rbind_Ok in H as (v & Hv & H).
  apply getitem_Ok in Hv. destruct v as [|s]; [done|]. by exists s.
Qed.

(** X17.  [tweak_html] returns a page only for a configuration that has
    all six decoration keys, the three path ones as strings: a missing
    key or a path entry without a value makes it raise. *)
Theorem tweak_html_needs_every_key
        (env : Env) (w : World) (html page : string) (config : Config) :
  tweak_html env w html config = Ok page ->
  (forall key, key ∈ ["custom_css"; "footer"; "header"] ->
               exists v, items config !! key = Some v) /\
  (forall key, key ∈ ["warmup"; "logo"; "background"] ->
               exists s, items config !! key = Some (PyStr s)).
Proof.
  unfold tweak_html. intros H.
  apply rbind_Ok in H as (h1 & H1 & H). apply rbind_Ok in H as (h2 & H2 & H).
  apply rbind_Ok in H as (h3 & H3 & H). apply rbind_Ok in H as (h4 & H4 & H).
  apply rbind_Ok in H as (h5 & H5 & H). apply rbind_Ok in H as (h6 & H6 & _).
  apply rbind_Ok in H1 as (v1 & Hv1 & _). apply getitem_Ok in Hv1.
  apply rbind_Ok in H2 as (g2 & Hg2 & _). apply path_guard_Ok in Hg2.
  apply rbind_Ok in H3 as (v3 & Hv3 & _). apply getitem_Ok in Hv3.
  apply rbind_Ok in H4 as (v4 & Hv4 & _). apply getitem_Ok in Hv4.
  apply rbind_Ok in H5 as (g5 & Hg5 & _). apply path_guard_Ok in Hg5.
  apply rbind_Ok in H6 as (g6 & Hg6 & _). apply path_guard_Ok in Hg6.
  split; intros key Hkey;
    repeat (apply elem_of_cons in Hkey as [->|Hkey]; [by eauto|]);
    by apply elem_of_nil in Hkey.
Qed.

Lemma tweak_html_needs_every_key_witness :
  exists s, items (Sample.config "3.4.1" Sample.off) !! "logo" = Some (PyStr s).
Proof.
  refine (proj2 (tweak_html_needs_every_key Sample.plain_env Sample.start
                   Sample.two_reveal Sample.two_reveal (Sample.config "3.4.1" Sample.off) _)
                "logo" _).
  - vm_compute. reflexivity.
  - apply (bool_decide_unpack _). vm_compute. exact I.
Defined.

(** *** Blocks one after the other *)

Lemma find_indexes_from_app (regex : string) (l1 l2 : list string) (j : nat) :
  find_indexes_from j (l1 ++ l2) regex
  = find_indexes_from j l1 regex ++ find_indexes_from (j + length l1) l2 regex.
Proof.
  revert j. induction l1 as [|x l1 IH]; intros j; simpl.
  - by rewrite Nat.add_0_r.
  - rewrite IH. replace (S j + length l1) with (j + S (length l1)) by lia.
    by destruct (Re.search regex x).
Qed.

Lemma find_indexes_from_nil (regex : string) (l : list string) (j j' : nat) :
  find_indexes_from j l regex = [] -> find_indexes_from j' l regex = [].
Proof.
  revert j j'. induction l as [|x l IH]; intros j j'; simpl; [done|].
  destruct (Re.search regex x); [done|]. apply IH.
Qed.

Lemma insert_at_length {A} (pre rest : list A) (x : A) :
  PyList.insert (pre ++ rest) (length pre) x = pre ++ x :: rest.
Proof. unfold PyList.insert. by rewrite take_app_length, drop_app_length. Qed.

(** Inserting a line the marker is not found in, right after the only
    line it is found in, leaves that line the only one. *)
Lemma find_indexes_single_insert (regex : string) (html : list string) (i : nat) (x : string) :
  find_indexes html regex = [i] ->
  ~ matches regex x ->
  i < length html /\
  forall rest,
    find_indexes (take (S i) html ++ rest ++ drop (S i) html) regex
    = find_indexes_from 0 (take (S i) html) regex
      ++ find_indexes_from (S i) (rest ++ drop (S i) html) regex /\
    find_indexes_from 0 (take (S i) html) regex = [i] /\
    find_indexes_from (S i) (drop (S i) html) regex = [].
Proof.
  intros Hidx Hx.
  assert (i < length html) as Hlt.
  { assert (i ∈ find_indexes_from 0 html regex) as Hin by (unfold find_indexes in Hidx; rewrite Hidx; by left).
    apply find_indexes_from_bounds in Hin. lia. }
  split; [done|]. intros rest.
  assert (length (take (S i) html) = S i) as Hlen by (rewrite length_take; lia).
  unfold find_indexes. rewrite find_indexes_from_app, Hlen. split; [done|].
  unfold find_indexes in Hidx. rewrite <- (take_drop (S i) html) in Hidx at 1.
  rewrite find_indexes_from_app, Hlen in Hidx. simpl in Hidx.
  destruct (find_indexes_from 0 (take (S i) html) regex) as [|a A] eqn:HA.
  - simpl in Hidx.
    assert (i ∈ find_indexes_from (S i) (drop (S i) html) regex) as Hin by (rewrite Hidx; by left).
    apply find_indexes_from_bounds in Hin. lia.
  - injection Hidx as -> Hrest. apply app_eq_nil in Hrest as [-> Hrest]. done.
Qed.

Lemma find_indexes_after_insert (regex : string) (html : list string) (i : nat) (x : string) :
  find_indexes html regex = [i] ->
  ~ matches regex x ->
  find_indexes (take (S i) html ++ x :: drop (S i) html) regex = [i].
Proof.
  intros Hidx Hx.
  destruct (find_indexes_single_insert regex html i x Hidx Hx) as [_ H].
  destruct (H [x]) as (Heq & HA & HB). simpl in Heq. rewrite Heq, HA.
  simpl. unfold matches in Hx. destruct (Re.search regex x); [done|].
  by rewrite (find_indexes_from_nil _ _ _ (S (S i)) HB).
Qed.

(** X18.  On a page with the reveal marker in one line only, footer,
    header and logo, run in the order of [tweak_html], end up stacked
    right after that line in the opposite order: logo, header, footer;
    the footer and header lines must not contain the marker themselves. *)
Theorem decorations_stack_after_marker
        (env : Env) (w : World) (config : Config) (html : list string) (i : nat)
        (footer header : pyval) (logo : string) :
  items config !! "footer" = Some footer -> truthy footer = true ->
  items config !! "header" = Some header -> truthy header = true ->
  items config !! "logo" = Some (PyStr logo) ->
  path_exists env w (Pathlib.Path logo) = true ->
  find_indexes html reveal_marker = [i] ->
  ~ matches reveal_marker (footer_line footer) ->
  ~ matches reveal_marker (header_line header) ->
  rbind (tweak_footer config html) (fun html =>
  rbind (tweak_header config html) (fun html =>
  tweak_logo env w config html))
  = Ok (take (S i) html
          ++ logo_line (PyStr logo) :: header_line header :: footer_line footer
          :: drop (S i) html).
Proof.
  intros Hf Htf Hh Hth Hl Hex Hidx Hnf Hnh.
  destruct (find_indexes_single_insert _ _ _ _ Hidx Hnf) as [Hlt Hsplit].
  assert (length (take (S i) html) = S i) as Hlen by (rewrite length_take; lia).
  set (pre := take (S i) html) in *. set (post := drop (S i) html) in *.
  (* footer *)
  assert (tweak_footer config html = Ok (pre ++ footer_line footer :: post)) as ->.
  { unfold tweak_footer. rewrite (getitem_Some _ _ _ Hf). simpl. rewrite Htf, Hidx.
    by rewrite insert_after_single. }
  simpl.
  (* header *)
  assert (find_indexes (pre ++ footer_line footer :: post) reveal_marker = [i]) as Hidx1
    by (by apply find_indexes_after_insert).
  assert (tweak_header config (pre ++ footer_line footer :: post)
          = Ok (pre ++ header_line header :: footer_line footer :: post)) as ->.
  { unfold tweak_header. rewrite (getitem_Some _ _ _ Hh). simpl. rewrite Hth, Hidx1.
    unfold insert_after_each. simpl. rewrite Nat.add_1_r, <- Hlen.
    by rewrite insert_at_length. }
  simpl.
  (* logo *)
  assert (find_indexes (pre ++ header_line header :: footer_line footer :: post)
                       reveal_marker = [i]) as Hidx2.
  { destruct (Hsplit [header_line header; footer_line footer]) as (Heq & HA & HB).
    simpl in Heq. rewrite Heq, HA. simpl.
    unfold matches in Hnf, Hnh.
    destruct (Re.search reveal_marker (header_line header)); [done|].
    destruct (Re.search reveal_marker (footer_line footer)); [done|].
    by rewrite (find_indexes_from_nil _ _ _ (S (S (S i))) HB). }
  rewrite (tweak_logo_guard env w config _ logo Hl), Hex, Hidx2.
  unfold insert_after_each. simpl. rewrite Nat.add_1_r, <- Hlen.
  by rewrite insert_at_length.
Qed.

Lemma decorations_stack_after_marker_witness :
  rbind (tweak_footer (Sample.config "3.4.1" Sample3.stacked) Sample3.one_reveal) (fun html =>
  rbind (tweak_header (Sample.config "3.4.1" Sample3.stacked) html) (fun html =>
  tweak_logo Sample.plain_env Sample.start (Sample.config "3.4.1" Sample3.stacked) html))
  = Ok [ "<body>"; reveal_marker; logo_line (PyStr ""); header_line (PyStr "talk");
         footer_line (PyStr "me"); "<p>a</p>" ].
Proof.
  apply (decorations_stack_after_marker Sample.plain_env Sample.start
           (Sample.config "3.4.1" Sample3.stacked) Sample3.one_reveal 1
           (PyStr "me") (PyStr "talk") "").
  - vm_compute. reflexivity.
  - vm_compute. reflexivity.
  - vm_compute. reflexivity.
  - vm_compute. reflexivity.
  - vm_compute. reflexivity.
  - vm_compute. reflexivity.
  - vm_compute. reflexivity.
  - by vm_compute.
  - by vm_compute.
Defined.

(** ** [latest_revealjs_release] and [initialize_localdir], once more *)

(** X19.  [latest_revealjs_release] sends one request, to the release
    index, and touches no file, however it ends; it returns the
    [tag_name] of the first release, raises [IndexError] on an empty
    index and [KeyError] when the first release has no [tag_name]. *)
Theorem latest_revealjs_release_contract (env : Env) (w : World) :
  let after := latest_revealjs_release env w in
  fs (fst after) = fs w /\
  requests (fst after) = requests w ++ [releases_url] /\
  snd after =
    match releases env with
    | Raise e => Raise e
    | Ok [] => Raise IndexError
    | Ok (latest :: _) =>
        match latest !! "tag_name" with
        | Some tag => Ok tag
        | None => Raise (KeyError "tag_name")
        end
    end.
Proof.
  unfold latest_revealjs_release, bind, http_get, lift.
  destruct (releases env) as [[|latest rest]|e]; simpl; try done.
  by destruct (latest !! "tag_name").
Qed.

(** *** Who sends requests *)

Lemma bind_run {A B} (m : IO A) (k : A -> IO B) (w : World) :
  bind m k w = match m w with
               | (w', Ok a) => k a w'
               | (w', Raise e) => (w', Raise e)
               end.
Proof. reflexivity. Qed.

Lemma quiet_bind {A B} (m : IO A) (k : A -> IO B) :
  quiet m -> (forall a, quiet (k a)) -> quiet (bind m k).
Proof.
  intros Hm Hk w. unfold bind. specialize (Hm w).
  destruct (m w) as [w1 [a|e]]; simpl in *; [|done].
  by rewrite (Hk a w1).
Qed.

Lemma quiet_ret {A} (a : A) : quiet (ret a).
Proof. done. Qed.

Lemma quiet_mkdir (env : Env) (p : Pathlib.PurePath) : quiet (Path_mkdir_parents env p).
Proof. intros w. unfold Path_mkdir_parents. by destruct (forallb _ _). Qed.

Lemma quiet_exists (env : Env) (p : Pathlib.PurePath) : quiet (Path_exists env p).
Proof. done. Qed.

Lemma quiet_unlink (env : Env) (p : Pathlib.PurePath) : quiet (Path_unlink env p).
Proof. intros w. unfold Path_unlink. by destruct (FS.lstat _ _) as [[| |]|]. Qed.

Lemma quiet_symlink_to (env : Env) (link target : Pathlib.PurePath) :
  quiet (Path_symlink_to env link target).
Proof.
  intros w. unfold Path_symlink_to. destruct (FS.lstat _ _); [done|].
  by destruct (FS.is_dir _ _).
Qed.

Lemma quiet_tarfile_open (env : Env) (name : string) : quiet (tarfile_open env name).
Proof. intros w. unfold tarfile_open. by destruct (FS.stat _ _) as [[| |]|]. Qed.

Lemma quiet_extractall (env : Env) (dest : Pathlib.PurePath) (h : Store) (members : list ref) :
  quiet (extractall env dest h members).
Proof. intros w. unfold extractall. by destruct (extract_fault env). Qed.

(** The last statements of [initialize_localdir] send nothing. *)
Lemma quiet_relink (env : Env) (link target : Pathlib.PurePath) {A} (out : A) :
  quiet (bind (Path_exists env link) (fun found =>
           bind (if found then Path_unlink env link else ret tt) (fun _ =>
             bind (Path_symlink_to env link target) (fun _ => ret out)))).
Proof.
  apply quiet_bind; [apply quiet_exists|]. intros found.
  apply quiet_bind; [destruct found; [apply quiet_unlink|apply quiet_ret]|]. intros _.
  apply quiet_bind; [apply quiet_symlink_to|]. intros _. apply quiet_ret.
Qed.

(** Fetching a given version sends one request, for its archive. *)
Lemma fetch_revealjs_requests (env : Env) (reveal_path : Pathlib.PurePath)
      (version : string) (w : World) :
  version <> "latest" ->
  requests (fst (fetch_revealjs env reveal_path version w))
  = requests w ++ [archive_url version].
Proof.
  intros Hv. unfold fetch_revealjs.
  apply String.eqb_neq in Hv. rewrite Hv.
  unfold bind at 1. unfold ret at 1.
  unfold bind at 1. unfold urlretrieve at 1. unfold bind at 1. unfold http_get at 1.
  destruct (download env (archive_url version)) as [bytes|e]; [|done].
  set (w1 := set_fs _ _).
  assert (quiet (bind (tarfile_open env (tmpname env)) (fun infos =>
            bind (extractall env reveal_path
                    (fst (clean_revealjs_tar_members (getmembers_store infos) (getmembers infos)))
                    (snd (clean_revealjs_tar_members (getmembers_store infos) (getmembers infos))))
                 (fun _ => os_remove env (tmpname env))))) as Hq.
  { apply quiet_bind; [apply quiet_tarfile_open|]. intros infos.
    apply quiet_bind; [apply quiet_extractall|]. intros _. apply quiet_unlink. }
  by rewrite (Hq w1).
Qed.

(** The requests of a call for a given version, by cases: any property of
    the two possible logs holds of the log after the call. *)
Lemma initialize_localdir_requests
      (env : Env) (localdir : Pathlib.PurePath) (version : string) (w : World)
      (P : list string -> Prop) :
  version <> "latest" ->
  P (requests w) ->
  P (requests w ++ [archive_url version]) ->
  P (requests (fst (initialize_localdir env localdir version w))).
Proof.
  intros Hv Hnone Hone. unfold initialize_localdir.
  rewrite bind_run. pose proof (quiet_mkdir env (localdir // "out") w) as Hmk.
  destruct (Path_mkdir_parents env (localdir // "out") w) as [w1 [u|e]]; simpl in Hmk;
    cbv beta iota; [|simpl; by rewrite Hmk].
  rewrite bind_run. unfold Path_exists at 1; cbv beta iota.
  rewrite bind_run.
  destruct (negb (path_exists env w1 (localdir // version))) eqn:Hfound; cbv beta iota.
  - pose proof (fetch_revealjs_requests env (localdir // version) version w1 Hv) as Hfetch.
    destruct (fetch_revealjs env (localdir // version) version w1) as [w2 [u'|e]];
      simpl in Hfetch; cbv beta iota; [|simpl; by rewrite Hfetch, Hmk].
    rewrite (quiet_relink env _ _ (localdir // "out") w2). by rewrite Hfetch, Hmk.
  - unfold ret at 1; cbv beta iota.
    rewrite (quiet_relink env _ _ (localdir // "out") w1). by rewrite Hmk.
Qed.

(** X20.  For a version other than [latest], [initialize_localdir] never
    asks for the release index: however the call ends, it has sent either
    nothing or the one request for that version's archive. *)
Theorem given_version_sends_one_request
        (env : Env) (localdir : Pathlib.PurePath) (version : string) (w : World) :
  version <> "latest" ->
  let after := fst (initialize_localdir env localdir version w) in
  requests after = requests w \/
  requests after = requests w ++ [archive_url version].
Proof.
  intros Hv after. unfold after.
  apply (initialize_localdir_requests env localdir version w
           (fun log => log = requests w \/ log = requests w ++ [archive_url version]) Hv);
    [by left|by right].
Qed.

Lemma given_version_sends_one_request_witness :
  "3.4.1" <> "latest" /\
  requests (fst (initialize_localdir
                   (Sample.env (Sample.config "3.4.1" Sample.off) (Some 1) (Ok ""))
                   Sample.localdir "3.4.1" Sample.start))
  = [archive_url "3.4.1"].
Proof.
  split; [discriminate|].
  destruct (given_version_sends_one_request
              (Sample.env (Sample.config "3.4.1" Sample.off) (Some 1) (Ok ""))
              Sample.localdir "3.4.1" Sample.start ltac:(discriminate)) as [H|H].
  - vm_compute in H. discriminate H.
  - exact H.
Defined.

(** X21.  When the version directory is already there, the call sends
    no request and changes nothing but the reference: apart from the
    output directory it may have had to create, every path but that of
    the reference is as before, however the call ends. *)
Theorem provisioned_version_is_reused
        (env : Env) (localdir : Pathlib.PurePath) (version : string) (w w1 : World) :
  Path_mkdir_parents env (localdir // "out") w = (w1, Ok tt) ->
  path_exists env w1 (localdir // version) = true ->
  let after := fst (initialize_localdir env localdir version w) in
  requests after = requests w /\
  forall q, q <> here env (localdir // "out" // "revealjs") -> fs after q = fs w1 q.
Proof.
  intros Hmk Hver after. unfold after.
  assert (initialize_localdir env localdir version w
          = bind (Path_exists env (localdir // "out" // "revealjs")) (fun found =>
              bind (if found then Path_unlink env (localdir // "out" // "revealjs")
                    else ret tt) (fun _ =>
                bind (Path_symlink_to env (localdir // "out" // "revealjs")
                        (localdir // version))
                     (fun _ => ret (localdir // "out")))) w1) as ->.
  { unfold initialize_localdir.
    rewrite bind_run, Hmk; cbv beta iota.
    rewrite bind_run. unfold Path_exists at 1; cbv beta iota. rewrite Hver. cbn [negb].
    rewrite bind_run. by unfold ret at 1. }
  apply mkdir_Ok in Hmk as Hw1.
  split.
  - rewrite (quiet_relink env _ _ (localdir // "out") w1). by rewrite Hw1.
  - intros q Hq. rewrite bind_run. unfold Path_exists; cbv beta iota.
    assert (forall w2, (forall q, q <> here env (localdir // "out" // "revealjs") ->
                                  fs w2 q = fs w1 q) ->
              fs (fst (bind (Path_symlink_to env (localdir // "out" // "revealjs")
                               (localdir // version))
                            (fun _ => ret (localdir // "out")) w2)) q = fs w1 q) as Hsym.
    { intros w2 Hw2. rewrite bind_run. unfold Path_symlink_to.
      destruct (FS.lstat _ _); [by apply Hw2|].
      destruct (FS.is_dir _ _); cbn; [|by apply Hw2].
      rewrite fs_set_ne by done. by apply Hw2. }
    rewrite bind_run.
    destruct (path_exists env w1 (localdir // "out" // "revealjs")); cbv beta iota.
    + unfold Path_unlink.
      destruct (FS.lstat (fs w1) (here env (localdir // "out" // "revealjs"))) as [[| |]|];
        cbv beta iota; try done; apply Hsym; intros q' Hq'; cbn; by rewrite fs_set_ne.
    + unfold ret at 1; cbv beta iota. by apply Hsym.
Qed.

Lemma provisioned_version_is_reused_witness :
  requests (fst (initialize_localdir
                   (Sample.env (Sample.config "3.4.1" Sample.off) None (Ok ""))
                   Sample.localdir "3.4.1" Sample2.built)) = [].
Proof.
  refine (proj1 (provisioned_version_is_reused
                   (Sample.env (Sample.config "3.4.1" Sample.off) None (Ok ""))
                   Sample.localdir "3.4.1" Sample2.built
                   (set_fs Sample2.built
                      (FS.make_dirs (fs Sample2.built) ["home"; "u"; ".markdownreveal"; "out"]))
                   _ _)).
  - vm_compute. reflexivity.
  - vm_compute. reflexivity.
Defined.

(** X22.  A call that returns, returns the output directory [out] below
    the local directory and leaves the reference [revealjs] in it
    pointing at the directory of the version asked for. *)
Theorem initialize_localdir_returns
        (env : Env) (localdir out : Pathlib.PurePath) (version : string) (w w' : World) :
  initialize_localdir env localdir version w = (w', Ok out) ->
  out = localdir // "out" /\
  fs w' (here env (localdir // "out" // "revealjs"))
  = Some (FS.Symlink (localdir // version)).
Proof.
  intros H. unfold initialize_localdir in H.
  apply bind_Ok in H as (u & w1 & _ & H).
  apply bind_Ok in H as (found & w2 & _ & H).
  apply bind_Ok in H as (u' & w3 & _ & H).
  pose proof H as Hlink. apply relink_Ok in Hlink as (Hlink & _).
  split; [|done].
  apply bind_Ok in H as (f & w4 & _ & H). apply bind_Ok in H as (u2 & w5 & _ & H).
  apply bind_Ok in H as (u3 & w6 & _ & H). by injection H as _ <-.
Qed.

Lemma initialize_localdir_returns_witness :
  fs (fst (initialize_localdir (Sample.env (Sample.config "3.4.1" Sample.off) None (Ok ""))
                               Sample.localdir "3.4.1" Sample.start))
     ["home"; "u"; ".markdownreveal"; "out"; "revealjs"]
  = Some (FS.Symlink (Sample.localdir // "3.4.1")).
Proof.
  refine (proj2 (initialize_localdir_returns
                   (Sample.env (Sample.config "3.4.1" Sample.off) None (Ok ""))
                   Sample.localdir (Sample.localdir // "out") "3.4.1" Sample.start _ _)).
  vm_compute. reflexivity.
Defined.

(** ** [generate], to its end *)

(** Writing at a name nothing has leaves what a path leads to as it is. *)
Lemma lstat_set_missing (f : FS.t) (q p : FS.path) (n : option FS.node) (x : FS.node) :
  q <> [] -> f q = None ->
  FS.lstat f p = Some x -> FS.lstat (FS.set f q n) p = Some x.
Proof.
  intros Hq Hnone Hp. destruct p as [|c p]; [done|].
  simpl in *. rewrite fs_set_ne; [done|]. intros Heq. subst q. congruence.
Qed.

Lemma resolve_set_missing (fuel : nat) (f : FS.t) (q p r : FS.path)
      (n : option FS.node) (x : FS.node) :
  q <> [] -> f q = None ->
  FS.resolve fuel f p = Some r -> FS.lstat f r = Some x ->
  FS.resolve fuel (FS.set f q n) p = Some r.
Proof.
  intros Hq Hnone. revert p. induction fuel as [|fuel IH]; intros p; simpl;
    destruct (FS.lstat f p) as [[| |target]|] eqn:Hp;
    try (rewrite (lstat_set_missing f q p n _ Hq Hnone Hp));
    try done; try (intros [= <-] Hx; congruence).
  apply IH.
Qed.

Lemma stat_set_missing (f : FS.t) (q p : FS.path) (n : option FS.node) (x : FS.node) :
  q <> [] -> f q = None ->
  FS.stat f p = Some x -> FS.stat (FS.set f q n) p = Some x.
Proof.
  intros Hq Hnone. unfold FS.stat.
  destruct (FS.resolve FS.max_links f p) as [r|] eqn:Hr; [|done].
  intros Hx. rewrite (resolve_set_missing _ f q p r n x Hq Hnone Hr Hx).
  by apply lstat_set_missing.
Qed.

Lemma is_dir_set_missing (f : FS.t) (q p : FS.path) (n : option FS.node) :
  q <> [] -> f q = None ->
  FS.is_dir f p = true -> FS.is_dir (FS.set f q n) p = true.
Proof.
  intros Hq Hnone. unfold FS.is_dir.
  destruct (FS.stat f p) as [[| |]|] eqn:Hp; try done.
  by rewrite (stat_set_missing f q p n _ Hq Hnone Hp).
Qed.

(** Opening a name nothing has, in a directory, for writing. *)
Lemma open_for_write_new (env : Env) (p : Pathlib.PurePath) (c : string) (w : World) :
  component c -> c <> ".." ->
  fs w (here env p ++ [c]) = None ->
  FS.is_dir (fs w) (here env p) = true ->
  open_for_write env (p // c) w = Ok (here env p ++ [c]).
Proof.
  intros Hc Hdd Hnone Hdir. unfold open_for_write.
  rewrite (here_truediv _ _ _ Hc Hdd).
  assert (FS.lstat (fs w) (here env p ++ [c]) = None) as Hl.
  { rewrite lstat_nonroot; [done|]. by destruct (here env p). }
  rewrite resolve_not_link by (intros target; by rewrite Hl).
  by rewrite Hl, removelast_last, Hdir.
Qed.

(** X23.  A build that goes through, in a presentation directory that
    has no [index.html] and no [.reload] of its own: [generate] returns,
    and leaves the output directory as the sync made it but for two
    files: [index.html] holds the converter's page as [tweak_html]
    returned it, and [.reload] holds the one line [x], whatever earlier
    builds had appended to it. *)
Theorem generate_builds_the_page
        (env : Env) (w w1 : World) (config : Config)
        (outdir : Pathlib.PurePath) (source : FS.path) (html page : string) :
  loaded env = Ok config ->
  initialize_localdir env (local_path config) (reveal_version config) w = (w1, Ok outdir) ->
  FS.resolve FS.max_links (fs w1) (here env (Pathlib.Path "presentation.md")) = Some source ->
  rsync_fault env = false ->
  let out := here env (output_path config) in
  let synced := rsync_mirror (removelast source) out (fs w1) in
  FS.is_dir synced out = true ->
  fs w1 (removelast source ++ ["index.html"]) = None ->
  fs w1 (removelast source ++ [".reload"]) = None ->
  pandoc env (FS.stat synced (here env (Pathlib.Path "presentation.md")))
         (extra_args (reveal_extra config)) = Ok html ->
  tweak_html env (set_fs w1 synced) html config = Ok page ->
  generate env w =
    (set_fs w1
       (FS.set (FS.set synced (out ++ ["index.html"]) (Some (FS.File page)))
               (out ++ [".reload"]) (Some (FS.File ("x" +:+ Str.nl)))),
     Ok tt).
Proof.
  intros Hconf Hinit Hsrc Hsync out synced Hdir Hindex Hreload Hconv Htweak.
  destruct component_index as [Hci Hddi]. destruct component_reload as [Hcr Hddr].
  assert (synced (out ++ ["index.html"]) = None) as Hi
      by (unfold synced; by rewrite rsync_mirror_below).
  assert (synced (out ++ [".reload"]) = None) as Hr
      by (unfold synced; by rewrite rsync_mirror_below).
  assert (out ++ ["index.html"] <> []) as Hne by (by destruct out).
  unfold generate, bind, load_config, lift. rewrite Hconf, Hinit.
  unfold Path_resolve. rewrite Hsrc.
  unfold rsync. rewrite Hsync. fold out. fold synced.
  unfold markdown_to_reveal. cbn [fs set_fs]. rewrite Hconv, Htweak.
  unfold Path_write_text.
  rewrite (open_for_write_new env (output_path config) "index.html" (set_fs w1 synced) Hci Hddi)
    by done.
  fold out. unfold append_text.
  rewrite (open_for_write_new env (output_path config) ".reload" _ Hcr Hddr).
  - fold out. cbn [fs set_fs].
    rewrite lstat_nonroot by (by destruct out).
    rewrite fs_set_ne by (intros Heq; by apply app_inj_tail in Heq as [_ ?]).
    by rewrite Hr.
  - cbn [fs set_fs]. fold out.
    rewrite fs_set_ne by (intros Heq; by apply app_inj_tail in Heq as [_ ?]). done.
  - cbn [fs set_fs]. fold out. by apply is_dir_set_missing.
Qed.

Lemma generate_builds_the_page_witness :
  let env := Sample.env (Sample.config "3.4.1" Sample.off) None (Ok "<p>deck</p>") in
  let after := generate env Sample2.built in
  snd after = Ok tt /\
  fs (fst after) ["home"; "u"; ".markdownreveal"; "out"; "index.html"]
  = Some (FS.File "<p>deck</p>") /\
  fs Sample2.built ["home"; "u"; ".markdownreveal"; "out"; ".reload"]
  = Some (FS.File ("x" +:+ Str.nl)) /\
  fs (fst after) ["home"; "u"; ".markdownreveal"; "out"; ".reload"]
  = Some (FS.File ("x" +:+ Str.nl)).
Proof.
  intros env after. unfold after.
  pose (w1 := fst (initialize_localdir env Sample.localdir "3.4.1" Sample2.built)).
  rewrite (generate_builds_the_page env Sample2.built w1
             (Sample.config "3.4.1" Sample.off) (Sample.localdir // "out")
             ["home"; "u"; "talk"; "presentation.md"] "<p>deck</p>" "<p>deck</p>").
  - cbn [fst snd fs set_fs]. split_and!; [done| | |]; vm_compute; reflexivity.
  - vm_compute. reflexivity.
  - vm_compute. reflexivity.
  - vm_compute. reflexivity.
  - vm_compute. reflexivity.
  - vm_compute. reflexivity.
  - vm_compute. reflexivity.
  - vm_compute. reflexivity.
  - vm_compute. reflexivity.
  - vm_compute. reflexivity.
Defined.



(** X25.  When [tweak_html] raises on the converter's page, [generate]
    raises the same exception and leaves the world as the sync left it:
    no page is written and nothing is appended to the reload file. *)
Theorem generate_tweak_failure
        (env : Env) (w w1 : World) (config : Config)
        (outdir : Pathlib.PurePath) (source : FS.path) (html : string) (e : exn) :
  loaded env = Ok config ->
  initialize_localdir env (local_path config) (reveal_version config) w = (w1, Ok outdir) ->
  FS.resolve FS.max_links (fs w1) (here env (Pathlib.Path "presentation.md")) = Some source ->
  rsync_fault env = false ->
  let synced := rsync_mirror (removelast source) (here env (output_path config)) (fs w1) in
  pandoc env (FS.stat synced (here env (Pathlib.Path "presentation.md")))
         (extra_args (reveal_extra config)) = Ok html ->
  tweak_html env (set_fs w1 synced) html config = Raise e ->
  generate env w = (set_fs w1 synced, Raise e).
Proof.
  intros Hconf Hinit Hsrc Hsync synced Hconv Htweak.
  unfold generate, bind, load_config, lift. rewrite Hconf, Hinit.
  unfold Path_resolve. rewrite Hsrc.
  unfold rsync. rewrite Hsync. fold synced.
  unfold markdown_to_reveal. cbn [fs set_fs]. by rewrite Hconv, Htweak.
Qed.

Lemma generate_tweak_failure_witness :
  let env := Sample.env (Sample.config "3.4.1" Sample.css_only) None (Ok "<p>deck</p>") in
  snd (generate env Sample2.built) = Raise IndexError.
Proof.
  intros env.
  pose (w1 := fst (initialize_localdir env Sample.localdir "3.4.1" Sample2.built)).
  rewrite (generate_tweak_failure env Sample2.built w1
             (Sample.config "3.4.1" Sample.css_only) (Sample.localdir // "out")
             ["home"; "u"; "talk"; "presentation.md"] "<p>deck</p>" IndexError).
  - done.
  - vm_compute. reflexivity.
  - vm_compute. reflexivity.
  - vm_compute. reflexivity.
  - vm_compute. reflexivity.
  - vm_compute. reflexivity.
  - vm_compute. reflexivity.
Defined.

(** ** The watchdog [Handler], for every run of events *)
Section Builds.

Import Watch.
Local Open Scope Z_scope.

Variable build_time : Z -> Z.

Lemma spaced_snoc (p : Z) (bs : list Z) (b b' : Z) :
spaced build_time p bs -> last bs = Some b ->
b + build_time b + p <= b' ->
spaced build_time p (bs ++ [b']).
Proof.
revert b. induction bs as [|b0 [|b1 bs] IH]; intros b Hs Hlast Hle; [done| |].
- injection Hlast as ->. simpl. done.
- destruct Hs as [H01 Hs]. split; [done|].
  apply (IH b Hs); [|done]. done.
Qed.

Lemma steady_fresh (p : Z) : steady build_time p (fresh p).
Proof. done. Qed.

Lemma steady_deliver (p : Z) (s : Watcher) (now : Z) :
steady build_time p s -> steady build_time p (deliver build_time s now).
Proof.
intros (Hp & Hi & Hs & Hlast).
destruct (is_alive build_time (timer (handler s)) now) eqn:Halive.
- unfold deliver, on_any_event. rewrite Halive. by destruct s.
- unfold deliver, on_any_event. rewrite Halive. unfold steady. cbn.
  split_and!; [done|done| |by rewrite last_snoc, Hp].
  unfold is_alive in Halive.
  destruct (started (timer (handler s))) as [t|].
  + apply Z.ltb_ge in Halive. rewrite Hi in Halive.
    apply (spaced_snoc p _ (t + p)); [done|done|lia].
  + by rewrite Hlast.
Qed.

Lemma steady_deliver_all (p : Z) (events : list Z) (s : Watcher) :
steady build_time p s -> steady build_time p (deliver_all build_time s events).
Proof.
revert s. induction events as [|e events IH]; intros s Hs; [done|].
apply IH. by apply steady_deliver.
Qed.

(** X26.  Builds never overlap: whatever events arrive at a handler,
  and however long builds take, each build it makes is due at least one
  period after the build before it has ended. *)
Theorem builds_keep_their_distance (p : Z) (events : list Z) :
spaced build_time p (builds (deliver_all build_time (fresh p) events)).
Proof.
by destruct (steady_deliver_all p events (fresh p) (steady_fresh p)) as (_ & _ & H & _).
Qed.

Lemma deliver_builds_sublist (p : Z) (s : Watcher) (now : Z) (before : list Z) :
period (handler s) = p ->
builds s `sublist_of` before ->
period (handler (deliver build_time s now)) = p /\
builds (deliver build_time s now) `sublist_of` before ++ [now + p].
Proof.
intros Hp Hsub. unfold deliver, on_any_event.
destruct (is_alive build_time (timer (handler s)) now); cbn.
- split; [done|]. by apply sublist_inserts_r.
- split; [done|]. rewrite Hp. by apply sublist_app.
Qed.

Lemma deliver_all_builds_sublist (p : Z) (events : list Z) (s : Watcher) (before : list Z) :
period (handler s) = p ->
builds s `sublist_of` before ->
builds (deliver_all build_time s events)
  `sublist_of` before ++ map (fun e => e + p) events.
Proof.
revert s before. induction events as [|e events IH]; intros s before Hp Hsub.
- by rewrite app_nil_r.
- destruct (deliver_builds_sublist p s e before Hp Hsub) as [Hp' Hsub'].
  cbn [map]. rewrite cons_middle, app_assoc. by apply IH.
Qed.

(** X27.  Every build answers an event: the builds a handler makes are
  due one period after some of the events it was given, in the order
  of those events, at most one build for each. *)
Theorem builds_answer_events (p : Z) (events : list Z) :
builds (deliver_all build_time (fresh p) events)
  `sublist_of` map (fun e => e + p) events.
Proof.
by apply (deliver_all_builds_sublist p events (fresh p) []).
Qed.

Lemma deliver_all_head (events : list Z) (s : Watcher) (b : Z) :
head (builds s) = Some b ->
head (builds (deliver_all build_time s events)) = Some b.
Proof.
revert s. induction events as [|e events IH]; intros s Hs; [done|].
apply IH. unfold deliver, on_any_event.
destruct (is_alive build_time (timer (handler s)) e); cbn; [done|].
by destruct (builds s).
Qed.

(** X28.  The first event given to a new handler is never ignored: the
  first build is due one period after it, whatever follows. *)
Theorem first_event_builds (p : Z) (e : Z) (events : list Z) :
head (builds (deliver_all build_time (fresh p) (e :: events))) = Some (e + p).
Proof.
change (deliver_all build_time (fresh p) (e :: events))
  with (deliver_all build_time (deliver build_time (fresh p) e) events).
by apply deliver_all_head.
Qed.

End Builds.
